(** * MahjongCopilot: the message router and the amulet sub-state of [BotManager]

    A shallow embedding of [src/bot_manager.py]: the websocket frame router
    [_process_msg], the session flow ids, and the amulet ("Sky-High
    Ambition") reconstruction handlers and display queries.

    Python values that arrive from the protocol parser are modelled by the
    inductive type [pyval]; Python statements that mutate [self] are
    functions in a state monad whose exceptions keep the state reached so
    far, because the main loop catches every exception of [_process_msg]
    and carries on with the object as it then is. *)

From Stdlib Require Import ZArith String Ascii List Lia.
From stdpp Require Import base option list gmap strings pretty sorting.

Set Warnings "-register-all".

Local Open Scope string_scope.
Local Open Scope list_scope.
Local Open Scope Z_scope.

(** ** Python values *)

(** The values the parser hands over: [None], booleans, integers, strings,
    lists and dictionaries keyed by strings. A dictionary is an association
    list read by its first binding of a key. Floating point numbers are left
    out. A string is a sequence of characters, one [ascii] each. *)
Inductive pyval : Type :=
| PNone
| PBool (b : bool)
| PInt (z : Z)
| PStr (s : string)
| PList (l : list pyval)
| PDict (d : list (string * pyval)).

Module Py.

(** Truth value of [x], as tested by [if x], [x or y], [bool(x)]. *)
Definition truthy (x : pyval) : bool :=
  match x with
  | PNone => false
  | PBool b => b
  | PInt z => negb (z =? 0)
  | PStr s => negb (String.eqb s "")
  | PList l => match l with [] => false | _ => true end
  | PDict d => match d with [] => false | _ => true end
  end.

(** [x or y] *)
Definition or (x y : pyval) : pyval := if truthy x then x else y.

(** First binding of [k] in an association list. *)
Fixpoint assoc (k : string) (d : list (string * pyval)) : option pyval :=
  match d with
  | [] => None
  | (k', v) :: d' => if String.eqb k k' then Some v else assoc k d'
  end.

(** [x.get(k)]: [None] of the option type is the [AttributeError] raised
    when [x] is not a dictionary. *)
Definition get (x : pyval) (k : string) : option pyval :=
  match x with
  | PDict d => Some (default PNone (assoc k d))
  | _ => None
  end.

(** [x.get(k, dflt)] *)
Definition get_default (x : pyval) (k : string) (dflt : pyval) : option pyval :=
  match x with
  | PDict d => Some (default dflt (assoc k d))
  | _ => None
  end.

(** [x[k]] for a string [k]: only a dictionary that has the key answers;
    [KeyError] and [TypeError] are both [None]. *)
Definition subscript (x : pyval) (k : string) : option pyval :=
  match x with
  | PDict d => assoc k d
  | _ => None
  end.

Definition is_dict (x : pyval) : bool :=
  match x with PDict _ => true | _ => false end.

Definition is_list (x : pyval) : bool :=
  match x with PList _ => true | _ => false end.

(** Does the string [sub] occur in [s]? ([sub in s] on two strings.) *)
Fixpoint occurs (sub s : string) : bool :=
  String.prefix sub s ||
  match s with
  | EmptyString => false
  | String _ s' => occurs sub s'
  end.

(** [k in x] for a string [k]: key membership in a dictionary, element
    membership in a list, substring test in a string, [TypeError] else. *)
Definition contains (k : string) (x : pyval) : option bool :=
  match x with
  | PDict d => Some (bool_decide (is_Some (assoc k d)))
  | PList l =>
      Some (existsb (fun e => match e with PStr s => String.eqb s k | _ => false end) l)
  | PStr s => Some (occurs k s)
  | _ => None
  end.

(** The characters of a string, each as a string of length one. *)
Fixpoint chars (s : string) : list string :=
  match s with
  | EmptyString => []
  | String c s' => String c EmptyString :: chars s'
  end.

(** Keys of a dictionary in insertion order, each once. *)
Definition keys (d : list (string * pyval)) : list string :=
  remove_dups (map fst d).

(** [for e in x]: the elements [x] yields, [TypeError] for a value that is
    not iterable. *)
Definition iter (x : pyval) : option (list pyval) :=
  match x with
  | PList l => Some l
  | PStr s => Some (map PStr (chars s))
  | PDict d => Some (map PStr (keys d))
  | _ => None
  end.

(** [len(x)] *)
Definition len (x : pyval) : option Z :=
  match x with
  | PList l => Some (Z.of_nat (length l))
  | PStr s => Some (Z.of_nat (String.length s))
  | PDict d => Some (Z.of_nat (length (keys d)))
  | _ => None
  end.

(** [l[lo:hi]] on a Rocq list, for [0 <= lo <= hi]. *)
Definition slice {A : Type} (lo hi : nat) (l : list A) : list A :=
  take (hi - lo) (drop lo l).

(** The elements of [x[lo:hi]] for a list or a string; a dictionary or a
    number cannot be sliced. *)
Definition slice_elems (lo hi : nat) (x : pyval) : option (list pyval) :=
  match x with
  | PList l => Some (slice lo hi l)
  | PStr s => Some (slice lo hi (map PStr (chars s)))
  | _ => None
  end.

(** [x[:]]: a shallow copy of a list or of a string. *)
Definition copy (x : pyval) : option pyval :=
  match x with
  | PList l => Some (PList l)
  | PStr s => Some (PStr s)
  | _ => None
  end.

(** [l[-n:]] for [n >= 1]: the last [n] elements, all of them when the
    list is shorter. *)
Definition last_n {A : Type} (n : nat) (l : list A) : list A :=
  drop (length l - n) l.

(** Can [x] be a member of a [set]? *)
Definition hashable (x : pyval) : bool :=
  match x with
  | PList _ | PDict _ => false
  | _ => true
  end.

(** [s.lower()], on the letters [A] to [Z]. *)
Definition lower_char (c : ascii) : ascii :=
  let n := nat_of_ascii c in
  if (65 <=? n)%nat && (n <=? 90)%nat then ascii_of_nat (n + 32) else c.

Fixpoint lower (s : string) : string :=
  match s with
  | EmptyString => EmptyString
  | String c s' => String (lower_char c) (lower s')
  end.

(** [sep.join(l)] *)
Fixpoint join (sep : string) (l : list string) : string :=
  match l with
  | [] => ""
  | [x] => x
  | x :: l' => x +:+ sep +:+ join sep l'
  end.

(** Truth value of a list of the manager's own. *)
Definition nonempty {A : Type} (l : list A) : bool :=
  match l with [] => false | _ => true end.

(** [max(0, min(x, n))] *)
Definition clamp (x n : Z) : Z := Z.max 0 (Z.min x n).

End Py.

Arguments Py.slice : simpl never.
Arguments Py.last_n : simpl never.

(** What the embedding takes from outside the repository's sources: the
    parsing of a string by [int], the text [str] gives for a value that is
    not a string, and the tile-to-emoji table of [common.mj_helper]
    ([None] where [cvt_ms2mjai] or the table lookup raises). *)
Record Builtins : Type := {
  int_of_str : string -> option Z;
  repr : pyval -> string;
  tile_emoji : string -> option string;
}.

(** The method-name constants of [liqi.LiqiMethod] that the router names. *)
Record LiqiMethod : Type := {
  checkNetworkDelay : string;
  heartbeat : string;
  routeHeartbeat : string;
  loginBeat : string;
  fetchAccountActivityData : string;
  fetchServerTime : string;
  oauth2Login : string;
  fetchAmuletActivityData : string;
  amuletActivityUpgrade : string;
  amuletActivityOperate : string;
  amuletActivityGiveup : string;
}.

(** [liqi.MsgType] *)
Inductive MsgType : Type := Notify | Req | Res.

Global Instance MsgType_eq_dec : EqDecision MsgType.
Proof. solve_decision. Defined.

(** ** The manager's state *)

(** The decoded protocol message: [liqimsg] with its four keys, all of
    which the parser provides. *)
Record LiqiMsg : Type := {
  liqi_id : Z;
  liqi_type : MsgType;
  liqi_method : string;
  liqi_data : pyval;
}.

(** [mitm.WsType] *)
Inductive WsType : Type := START | END | MESSAGE.

(** One websocket frame, [mitm.WSMessage]. The payload is kept as what
    [liqi_parser.parse] makes of it: [None] when the parser raises. *)
Record WSMessage : Type := {
  flow_id : string;
  type : WsType;
  content : option LiqiMsg;
}.

(** The calls [_process_msg] makes to the collaborators ([automation],
    [browser]). *)
Inductive callback : Type :=
| on_lobby_login (liqimsg : LiqiMsg)
| on_exit_lobby
| on_end_game
| overlay_clear_guidance.

(** A call as it is logged in the trace: which one, and the two flow ids
    the manager holds at the moment the call is made. *)
Record call : Type := {
  called : callback;
  lobby_at_call : option string;
  game_at_call : option string;
}.

(** The dictionary [_amulet_info], which always has these four keys. *)
Record AmuletInfo : Type := {
  stage : pyval;
  hands : pyval;
  desktop_remain : pyval;
  ended : pyval;
}.

(** The fields of [BotManager] that the router and the amulet handlers read
    or write, and the trace of the collaborator calls the router makes
    (oldest first). Calls made elsewhere, as those of [_loop_post_msg], are
    not in this trace. *)
Record BotManager : Type := {
  game_state : option unit;
  lobby_flow_id : option string;
  game_flow_id : option string;
  game_exception : option unit;
  _amulet_active : bool;
  _amulet_info : AmuletInfo;
  _amulet_pending_action : option pyval;
  _amulet_pool : pyval;
  _amulet_draw_ids : list Z;
  _amulet_used_ids : gset Z;
  _amulet_desktop_remain : Z;
  _amulet_replace_ids : list Z;
  _amulet_replace_cursor : Z;
  calls : list call;
}.

(** The info dictionary of an inactive amulet, as [__init__] and the
    give-up branch write it. *)
Definition info_defaults : AmuletInfo :=
  {| stage := PInt 0; hands := PList []; desktop_remain := PInt 0;
     ended := PBool false |}.

(** [BotManager.__init__] *)
Definition init : BotManager :=
  {| game_state := None; lobby_flow_id := None; game_flow_id := None;
     game_exception := None;
     _amulet_active := false; _amulet_info := info_defaults;
     _amulet_pending_action := None; _amulet_pool := PNone;
     _amulet_draw_ids := []; _amulet_used_ids := ∅;
     _amulet_desktop_remain := 0; _amulet_replace_ids := [];
     _amulet_replace_cursor := 0; calls := [] |}.

(** Field updates, one per assignment target of the source. *)
Definition set_game_state (v : option unit) (s : BotManager) : BotManager :=
  {| game_state := v; lobby_flow_id := lobby_flow_id s;
     game_flow_id := game_flow_id s; game_exception := game_exception s;
     _amulet_active := _amulet_active s; _amulet_info := _amulet_info s;
     _amulet_pending_action := _amulet_pending_action s;
     _amulet_pool := _amulet_pool s; _amulet_draw_ids := _amulet_draw_ids s;
     _amulet_used_ids := _amulet_used_ids s;
     _amulet_desktop_remain := _amulet_desktop_remain s;
     _amulet_replace_ids := _amulet_replace_ids s;
     _amulet_replace_cursor := _amulet_replace_cursor s; calls := calls s |}.

Definition set_lobby_flow_id (v : option string) (s : BotManager) : BotManager :=
  {| game_state := game_state s; lobby_flow_id := v;
     game_flow_id := game_flow_id s; game_exception := game_exception s;
     _amulet_active := _amulet_active s; _amulet_info := _amulet_info s;
     _amulet_pending_action := _amulet_pending_action s;
     _amulet_pool := _amulet_pool s; _amulet_draw_ids := _amulet_draw_ids s;
     _amulet_used_ids := _amulet_used_ids s;
     _amulet_desktop_remain := _amulet_desktop_remain s;
     _amulet_replace_ids := _amulet_replace_ids s;
     _amulet_replace_cursor := _amulet_replace_cursor s; calls := calls s |}.

Definition set_game_flow_id (v : option string) (s : BotManager) : BotManager :=
  {| game_state := game_state s; lobby_flow_id := lobby_flow_id s;
     game_flow_id := v; game_exception := game_exception s;
     _amulet_active := _amulet_active s; _amulet_info := _amulet_info s;
     _amulet_pending_action := _amulet_pending_action s;
     _amulet_pool := _amulet_pool s; _amulet_draw_ids := _amulet_draw_ids s;
     _amulet_used_ids := _amulet_used_ids s;
     _amulet_desktop_remain := _amulet_desktop_remain s;
     _amulet_replace_ids := _amulet_replace_ids s;
     _amulet_replace_cursor := _amulet_replace_cursor s; calls := calls s |}.

Definition set_game_exception (v : option unit) (s : BotManager) : BotManager :=
  {| game_state := game_state s; lobby_flow_id := lobby_flow_id s;
     game_flow_id := game_flow_id s; game_exception := v;
     _amulet_active := _amulet_active s; _amulet_info := _amulet_info s;
     _amulet_pending_action := _amulet_pending_action s;
     _amulet_pool := _amulet_pool s; _amulet_draw_ids := _amulet_draw_ids s;
     _amulet_used_ids := _amulet_used_ids s;
     _amulet_desktop_remain := _amulet_desktop_remain s;
     _amulet_replace_ids := _amulet_replace_ids s;
     _amulet_replace_cursor := _amulet_replace_cursor s; calls := calls s |}.

Definition set_amulet_active (v : bool) (s : BotManager) : BotManager :=
  {| game_state := game_state s; lobby_flow_id := lobby_flow_id s;
     game_flow_id := game_flow_id s; game_exception := game_exception s;
     _amulet_active := v; _amulet_info := _amulet_info s;
     _amulet_pending_action := _amulet_pending_action s;
     _amulet_pool := _amulet_pool s; _amulet_draw_ids := _amulet_draw_ids s;
     _amulet_used_ids := _amulet_used_ids s;
     _amulet_desktop_remain := _amulet_desktop_remain s;
     _amulet_replace_ids := _amulet_replace_ids s;
     _amulet_replace_cursor := _amulet_replace_cursor s; calls := calls s |}.

Definition set_amulet_info (v : AmuletInfo) (s : BotManager) : BotManager :=
  {| game_state := game_state s; lobby_flow_id := lobby_flow_id s;
     game_flow_id := game_flow_id s; game_exception := game_exception s;
     _amulet_active := _amulet_active s; _amulet_info := v;
     _amulet_pending_action := _amulet_pending_action s;
     _amulet_pool := _amulet_pool s; _amulet_draw_ids := _amulet_draw_ids s;
     _amulet_used_ids := _amulet_used_ids s;
     _amulet_desktop_remain := _amulet_desktop_remain s;
     _amulet_replace_ids := _amulet_replace_ids s;
     _amulet_replace_cursor := _amulet_replace_cursor s; calls := calls s |}.

Definition set_amulet_pool (v : pyval) (s : BotManager) : BotManager :=
  {| game_state := game_state s; lobby_flow_id := lobby_flow_id s;
     game_flow_id := game_flow_id s; game_exception := game_exception s;
     _amulet_active := _amulet_active s; _amulet_info := _amulet_info s;
     _amulet_pending_action := _amulet_pending_action s;
     _amulet_pool := v; _amulet_draw_ids := _amulet_draw_ids s;
     _amulet_used_ids := _amulet_used_ids s;
     _amulet_desktop_remain := _amulet_desktop_remain s;
     _amulet_replace_ids := _amulet_replace_ids s;
     _amulet_replace_cursor := _amulet_replace_cursor s; calls := calls s |}.

Definition set_amulet_draw_ids (v : list Z) (s : BotManager) : BotManager :=
  {| game_state := game_state s; lobby_flow_id := lobby_flow_id s;
     game_flow_id := game_flow_id s; game_exception := game_exception s;
     _amulet_active := _amulet_active s; _amulet_info := _amulet_info s;
     _amulet_pending_action := _amulet_pending_action s;
     _amulet_pool := _amulet_pool s; _amulet_draw_ids := v;
     _amulet_used_ids := _amulet_used_ids s;
     _amulet_desktop_remain := _amulet_desktop_remain s;
     _amulet_replace_ids := _amulet_replace_ids s;
     _amulet_replace_cursor := _amulet_replace_cursor s; calls := calls s |}.

Definition set_amulet_used_ids (v : gset Z) (s : BotManager) : BotManager :=
  {| game_state := game_state s; lobby_flow_id := lobby_flow_id s;
     game_flow_id := game_flow_id s; game_exception := game_exception s;
     _amulet_active := _amulet_active s; _amulet_info := _amulet_info s;
     _amulet_pending_action := _amulet_pending_action s;
     _amulet_pool := _amulet_pool s; _amulet_draw_ids := _amulet_draw_ids s;
     _amulet_used_ids := v;
     _amulet_desktop_remain := _amulet_desktop_remain s;
     _amulet_replace_ids := _amulet_replace_ids s;
     _amulet_replace_cursor := _amulet_replace_cursor s; calls := calls s |}.

Definition set_amulet_desktop_remain (v : Z) (s : BotManager) : BotManager :=
  {| game_state := game_state s; lobby_flow_id := lobby_flow_id s;
     game_flow_id := game_flow_id s; game_exception := game_exception s;
     _amulet_active := _amulet_active s; _amulet_info := _amulet_info s;
     _amulet_pending_action := _amulet_pending_action s;
     _amulet_pool := _amulet_pool s; _amulet_draw_ids := _amulet_draw_ids s;
     _amulet_used_ids := _amulet_used_ids s;
     _amulet_desktop_remain := v;
     _amulet_replace_ids := _amulet_replace_ids s;
     _amulet_replace_cursor := _amulet_replace_cursor s; calls := calls s |}.

Definition set_amulet_replace_ids (v : list Z) (s : BotManager) : BotManager :=
  {| game_state := game_state s; lobby_flow_id := lobby_flow_id s;
     game_flow_id := game_flow_id s; game_exception := game_exception s;
     _amulet_active := _amulet_active s; _amulet_info := _amulet_info s;
     _amulet_pending_action := _amulet_pending_action s;
     _amulet_pool := _amulet_pool s; _amulet_draw_ids := _amulet_draw_ids s;
     _amulet_used_ids := _amulet_used_ids s;
     _amulet_desktop_remain := _amulet_desktop_remain s;
     _amulet_replace_ids := v;
     _amulet_replace_cursor := _amulet_replace_cursor s; calls := calls s |}.

Definition set_amulet_replace_cursor (v : Z) (s : BotManager) : BotManager :=
  {| game_state := game_state s; lobby_flow_id := lobby_flow_id s;
     game_flow_id := game_flow_id s; game_exception := game_exception s;
     _amulet_active := _amulet_active s; _amulet_info := _amulet_info s;
     _amulet_pending_action := _amulet_pending_action s;
     _amulet_pool := _amulet_pool s; _amulet_draw_ids := _amulet_draw_ids s;
     _amulet_used_ids := _amulet_used_ids s;
     _amulet_desktop_remain := _amulet_desktop_remain s;
     _amulet_replace_ids := _amulet_replace_ids s;
     _amulet_replace_cursor := v; calls := calls s |}.

Definition set_calls (v : list call) (s : BotManager) : BotManager :=
  {| game_state := game_state s; lobby_flow_id := lobby_flow_id s;
     game_flow_id := game_flow_id s; game_exception := game_exception s;
     _amulet_active := _amulet_active s; _amulet_info := _amulet_info s;
     _amulet_pending_action := _amulet_pending_action s;
     _amulet_pool := _amulet_pool s; _amulet_draw_ids := _amulet_draw_ids s;
     _amulet_used_ids := _amulet_used_ids s;
     _amulet_desktop_remain := _amulet_desktop_remain s;
     _amulet_replace_ids := _amulet_replace_ids s;
     _amulet_replace_cursor := _amulet_replace_cursor s; calls := v |}.

Definition set_stage (v : pyval) (i : AmuletInfo) : AmuletInfo :=
  {| stage := v; hands := hands i; desktop_remain := desktop_remain i;
     ended := ended i |}.

Definition set_hands (v : pyval) (i : AmuletInfo) : AmuletInfo :=
  {| stage := stage i; hands := v; desktop_remain := desktop_remain i;
     ended := ended i |}.

Definition set_desktop_remain (v : pyval) (i : AmuletInfo) : AmuletInfo :=
  {| stage := stage i; hands := hands i; desktop_remain := v;
     ended := ended i |}.

Definition set_ended (v : pyval) (i : AmuletInfo) : AmuletInfo :=
  {| stage := stage i; hands := hands i; desktop_remain := desktop_remain i;
     ended := v |}.

Arguments set_game_state _ _ /.
Arguments set_lobby_flow_id _ _ /.
Arguments set_game_flow_id _ _ /.
Arguments set_game_exception _ _ /.
Arguments set_amulet_active _ _ /.
Arguments set_amulet_info _ _ /.
Arguments set_amulet_pool _ _ /.
Arguments set_amulet_draw_ids _ _ /.
Arguments set_amulet_used_ids _ _ /.
Arguments set_amulet_desktop_remain _ _ /.
Arguments set_amulet_replace_ids _ _ /.
Arguments set_amulet_replace_cursor _ _ /.
Arguments set_calls _ _ /.
Arguments set_stage _ _ /.
Arguments set_hands _ _ /.
Arguments set_desktop_remain _ _ /.
Arguments set_ended _ _ /.

(** ** Statements: state and exceptions *)

(** How a block of statements ends: it runs to its end with a value, or an
    exception leaves it. *)
Inductive outcome (A : Type) : Type :=
| Returned (a : A)
| Raised.
Arguments Returned {A} a.
Arguments Raised {A}.

(** A block of statements on [self]. Whatever the outcome, the object is
    left as the statements executed so far have made it. *)
Definition M (A : Type) : Type := BotManager -> outcome A * BotManager.

Global Instance M_ret : MRet M := fun A a s => (Returned a, s).

Global Instance M_bind : MBind M := fun A B f m s =>
  match m s with
  | (Returned a, s') => f a s'
  | (Raised, s') => (Raised, s')
  end.

(** An assignment to a field of [self]. *)
Definition assign (f : BotManager -> BotManager) : M unit :=
  fun s => (Returned tt, f s).

(** Evaluating an expression that may raise and has no effect on [self]. *)
Definition eval {A : Type} (e : option A) : M A :=
  fun s => match e with Some a => (Returned a, s) | None => (Raised, s) end.

(** Reading [self]. *)
Definition self : M BotManager := fun s => (Returned s, s).

(** [try: body except Exception: pass] *)
Definition try_pass (body : M unit) : M unit :=
  fun s => (Returned tt, (body s).2).

(** [for x in l: body] *)
Fixpoint for_each {A : Type} (l : list A) (body : A -> M unit) : M unit :=
  match l with
  | [] => mret tt
  | x :: l' => body x ;; for_each l' body
  end.

(** [pass], and the statements that only log. *)
Definition pass : M unit := mret tt.

(** A call to a collaborator, logged with the flow ids held at that
    moment. *)
Definition fire (c : callback) : M unit :=
  assign (fun s =>
    set_calls (calls s ++ [{| called := c; lobby_at_call := lobby_flow_id s;
                              game_at_call := game_flow_id s |}]) s).

(** An assignment into the dictionary [_amulet_info]. *)
Definition assign_info (f : AmuletInfo -> AmuletInfo) : M unit :=
  assign (fun s => set_amulet_info (f (_amulet_info s)) s).

(** ** The handlers *)

Section Manager.

Variable py : Builtins.
Variable liqi : LiqiMethod.

(** [int(x)] *)
Definition int (x : pyval) : option Z :=
  match x with
  | PBool b => Some (if b then 1 else 0)
  | PInt z => Some z
  | PStr s => int_of_str py s
  | PNone | PList _ | PDict _ => None
  end.

(** [str(x)] *)
Definition str (x : pyval) : string :=
  match x with
  | PStr s => s
  | _ => repr py x
  end.

(** [set(x)], kept as the sequence of its members: the elements of [x],
    none of which may be a list or a dictionary. The handlers only read the
    integers of the members, which equal members share. *)
Definition set_members (x : pyval) : option (list pyval) :=
  l ← Py.iter x;
  if forallb Py.hashable l then Some l else None.

Definition METHODS_TO_IGNORE : list string :=
  [ checkNetworkDelay liqi; heartbeat liqi; routeHeartbeat liqi;
    loginBeat liqi; fetchAccountActivityData liqi; fetchServerTime liqi;
    oauth2Login liqi ].

(** [isinstance(x, dict) and "id" in x] *)
Definition has_id (x : pyval) : bool :=
  Py.is_dict x && bool_decide (Py.contains "id" x = Some true).

(** [[int(x.get("id")) for x in xs if isinstance(x, dict) and "id" in x]] *)
Fixpoint ids_of (xs : list pyval) : option (list Z) :=
  match xs with
  | [] => Some []
  | x :: xs' =>
      if has_id x then
        v ← Py.get x "id"; z ← int v; zs ← ids_of xs'; Some (z :: zs)
      else ids_of xs'
  end.

Definition _amulet_set_pool_from_array (pool : pyval) : M unit :=
  p ← eval (Py.copy pool);
  assign (set_amulet_pool p) ;;
  s ← self;
  draw_slice ← eval (Py.slice_elems 23 59 (_amulet_pool s));
  draw_ids ← eval (ids_of draw_slice);
  assign (set_amulet_draw_ids draw_ids) ;;
  s ← self;
  rep_slice ← eval (Py.slice_elems 59 108 (_amulet_pool s));
  rep_ids ← eval (ids_of rep_slice);
  assign (set_amulet_replace_ids rep_ids) ;;
  assign (set_amulet_used_ids ∅) ;;
  assign (set_amulet_desktop_remain 36) ;;
  assign (set_amulet_replace_cursor 0).

(** [isinstance(x, dict) and x.get("dirty")] *)
Definition is_dirty (x : pyval) : bool :=
  Py.is_dict x && Py.truthy (default PNone (Py.get x "dirty")).

(** The [try] block of [_amulet_on_fetch_data] that fills [_amulet_info]. *)
Definition fetch_info (liqi_data : pyval) : M unit :=
  d ← eval (Py.get_default liqi_data "data" (PDict []));
  game_obj ← eval (Py.get_default d "game" (PDict []));
  r ← eval (Py.get game_obj "round");
  let round_obj2 := Py.or r (PDict []) in
  st ← eval (Py.get game_obj "stage");
  n ← eval (int (Py.or st (PInt 0)));
  assign_info (set_stage (PInt n)) ;;
  en ← eval (Py.get game_obj "ended");
  assign_info (set_ended (PBool (Py.truthy (Py.or en (PBool false))))) ;;
  h ← eval (Py.get round_obj2 "hands");
  let hands_init := Py.or h (PList []) in
  (if Py.is_list hands_init then assign_info (set_hands hands_init) else pass) ;;
  c ← eval (Py.contains "desktopRemain" round_obj2);
  if c : bool then
    v ← eval (Py.get round_obj2 "desktopRemain");
    dr ← eval (int (Py.or v (PInt 0)));
    assign_info (set_desktop_remain (PInt dr))
  else pass.

Definition _amulet_on_fetch_data (liqi_data : pyval) : M unit :=
  d ← eval (Py.get liqi_data "data");
  game ← eval (Py.get (Py.or d (PDict [])) "game");
  if negb (Py.truthy game) then mret tt else
  r ← eval (Py.get game "round");
  let round_obj := Py.or r (PDict []) in
  p ← eval (Py.get round_obj "pool");
  let pool := Py.or p (PList []) in
  (if Py.truthy pool then _amulet_set_pool_from_array pool else pass) ;;
  try_pass (fetch_info liqi_data) ;;
  u ← eval (Py.get round_obj "usedDesktop");
  used ← eval (set_members (Py.or u (PList [])));
  ids ← eval (mapM int used);
  assign (set_amulet_used_ids (list_to_set ids)) ;;
  dr ← eval (Py.get round_obj "desktopRemain");
  n ← eval (int (Py.or dr (PInt 0)));
  assign (set_amulet_desktop_remain n) ;;
  ur ← eval (Py.get round_obj "used");
  let used_replace := Py.or ur (PList []) in
  try_pass
    (if Py.is_list used_replace then
       n ← eval (Py.len used_replace);
       assign (set_amulet_replace_cursor n)
     else pass).

(** The part shared by the upgrade and operate loops: a dirty
    [desktopRemain], then a dirty [used]. *)
Definition apply_desktop_remain (rd : pyval) : M unit :=
  dr ← eval (Py.get rd "desktopRemain");
  if is_dirty dr then
    v ← eval (Py.get dr "value");
    n ← eval (int (Py.or v (PInt 0)));
    assign (set_amulet_desktop_remain n)
  else pass.

Definition apply_used (rd : pyval) : M unit :=
  used_rep ← eval (Py.get rd "used");
  if is_dirty used_rep then
    v ← eval (Py.get used_rep "value");
    let vals := Py.or v (PList []) in
    try_pass (n ← eval (Py.len vals); assign (set_amulet_replace_cursor n))
  else pass.

(** [_amulet_update_from_events] *)
Definition update_from_event (ev : pyval) : M unit :=
  v ← eval (Py.get_default ev "valueChanges" (PDict []));
  let vc := Py.or v (PDict []) in
  c ← eval (Py.contains "stage" vc);
  (if c : bool then
     x ← eval (Py.subscript vc "stage"); assign_info (set_stage x)
   else pass) ;;
  r ← eval (Py.get vc "round");
  let rd := Py.or r (PDict []) in
  hs ← eval (Py.get rd "hands");
  (if is_dirty hs then
     x ← eval (Py.get hs "value");
     assign_info (set_hands (Py.or x (PList [])))
   else pass) ;;
  dr ← eval (Py.get rd "desktopRemain");
  (if is_dirty dr then
     x ← eval (Py.get_default dr "value" (PInt 0));
     assign_info (set_desktop_remain x)
   else pass) ;;
  c ← eval (Py.contains "ended" vc);
  if c : bool then
    x ← eval (Py.subscript vc "ended");
    assign_info (set_ended (PBool (Py.truthy x)))
  else pass.

Definition _amulet_update_from_events (events : list pyval) : M unit :=
  for_each events update_from_event.

(** The loop body of [_amulet_on_upgrade_events]. *)
Definition upgrade_event (ev : pyval) : M unit :=
  v ← eval (Py.get ev "valueChanges");
  let vc := Py.or v (PDict []) in
  r ← eval (Py.get vc "round");
  let rd := Py.or r (PDict []) in
  p ← eval (Py.get rd "pool");
  let pool := Py.or p (PDict []) in
  (if is_dirty pool && Py.is_list (default PNone (Py.get pool "value")) then
     value ← eval (Py.subscript pool "value");
     _amulet_set_pool_from_array value
   else pass) ;;
  apply_desktop_remain rd ;;
  apply_used rd.

Definition _amulet_on_upgrade_events (events : list pyval) : M unit :=
  for_each events upgrade_event ;;
  try_pass (_amulet_update_from_events events).

(** The loop body of [_amulet_on_operate_events]. *)
Definition operate_event (ev : pyval) : M unit :=
  v ← eval (Py.get ev "valueChanges");
  let vc := Py.or v (PDict []) in
  r ← eval (Py.get vc "round");
  let rd := Py.or r (PDict []) in
  used ← eval (Py.get rd "usedDesktop");
  (if is_dirty used then
     x ← eval (Py.get used "value");
     vals ← eval (Py.iter (Py.or x (PList [])));
     ids ← eval (mapM int vals);
     assign (set_amulet_used_ids (list_to_set ids))
   else pass) ;;
  apply_desktop_remain rd ;;
  apply_used rd.

Definition _amulet_on_operate_events (events : list pyval) : M unit :=
  for_each events operate_event ;;
  try_pass (_amulet_update_from_events events).

(** [_process_end_game]; [self.browser], set in [__init__] and never
    cleared, is taken as true. *)
Definition _process_end_game : M unit :=
  assign (set_game_state None) ;;
  fire overlay_clear_guidance ;;
  assign (set_game_exception None) ;;
  fire on_end_game.

(** The branch of [_process_msg] for an amulet response, by method. *)
Definition amulet_dispatch (liqimsg : LiqiMsg) : M unit :=
  let method := liqi_method liqimsg in
  let liqi_data := liqi_data liqimsg in
  if String.eqb method (fetchAmuletActivityData liqi) then
    assign (set_amulet_active true) ;;
    _amulet_on_fetch_data liqi_data
  else if String.eqb method (amuletActivityUpgrade liqi) then
    assign (set_amulet_active true) ;;
    e ← eval (Py.get liqi_data "events");
    events ← eval (Py.iter (Py.or e (PList [])));
    _amulet_on_upgrade_events events
  else if String.eqb method (amuletActivityOperate liqi) then
    assign (set_amulet_active true) ;;
    e ← eval (Py.get liqi_data "events");
    events ← eval (Py.iter (Py.or e (PList [])));
    _amulet_on_operate_events events
  else if String.eqb method (amuletActivityGiveup liqi) then
    assign (set_amulet_active false) ;;
    assign (set_amulet_pool PNone) ;;
    assign (set_amulet_draw_ids []) ;;
    assign (set_amulet_used_ids ∅) ;;
    assign (set_amulet_desktop_remain 0) ;;
    assign (set_amulet_replace_ids []) ;;
    assign (set_amulet_replace_cursor 0) ;;
    assign_info (fun i =>
      set_ended (PBool false)
        (set_desktop_remain (PInt 0) (set_hands (PList []) (set_stage (PInt 0) i))))
  else pass.

(** [_process_msg] *)
Definition _process_msg (msg : WSMessage) : M unit :=
  match type msg with
  | START => pass
  | END =>
      s ← self;
      (if bool_decide (Some (flow_id msg) = game_flow_id s) then
         _process_end_game ;;
         assign (set_game_flow_id None)
       else pass) ;;
      s ← self;
      if bool_decide (Some (flow_id msg) = lobby_flow_id s) then
        assign (set_lobby_flow_id None) ;;
        fire on_exit_lobby
      else pass
  | MESSAGE =>
      match content msg with
      | None => pass
      | Some liqimsg =>
          let method := liqi_method liqimsg in
          if bool_decide (method ∈ METHODS_TO_IGNORE) then pass
          else if bool_decide (liqi_type liqimsg = Res)
                  && String.eqb method (oauth2Login liqi) then
            s ← self;
            match lobby_flow_id s with
            | None =>
                assign (set_lobby_flow_id (Some (flow_id msg))) ;;
                fire (on_lobby_login liqimsg)
            | Some _ => pass
            end
          else if Py.occurs "amulet" (Py.lower method) then
            if bool_decide (liqi_type liqimsg = Res)
            then amulet_dispatch liqimsg
            else pass
          else s ← self;
               if bool_decide (Some (flow_id msg) = lobby_flow_id s)
               then pass
               else pass
      end
  end.

(** The [try] statement of the main loop of [_run] around [_process_msg]:
    an exception is logged and kept in [game_exception], and the loop goes
    on. The steps of a turn before and after it, [_loop_pre_msg] and
    [_loop_post_msg], are not part of it; of the fields kept here they
    write only [game_exception]. *)
Definition loop_msg (msg : WSMessage) (s : BotManager) : BotManager :=
  match _process_msg msg s with
  | (Returned _, s') => s'
  | (Raised, s') => set_game_exception (Some tt) s'
  end.

(** ** The display queries *)

(** The [id -> tile] table the three queries build from the pool: an entry
    for every object that has a ["tile"], and an ["id"] that [int] accepts;
    the other objects are skipped by [except Exception: continue]. *)
Definition id2tile_entry (obj : pyval) : option (Z * string) :=
  t ← Py.subscript obj "tile";
  i ← Py.subscript obj "id";
  z ← int i;
  Some (z, str t).

Definition id2tile_of (objs : list pyval) : gmap Z string :=
  foldl (fun m obj =>
           match id2tile_entry obj with
           | Some (z, t) => <[z := t]> m
           | None => m
           end) ∅ objs.

(** [[id2tile.get(pid, "?") for pid in ids]] *)
Definition tiles_of (id2tile : gmap Z string) (ids : list Z) : list string :=
  map (fun pid => default "?" (id2tile !! pid)) ids.

(** [_as_emoji] *)
Definition _as_emoji (ms_tile : string) : string :=
  default ms_tile (tile_emoji py ms_tile).

(** The [while i < n] loop of [_chunk_by9_tail_first]; [fuel] bounds the
    number of turns. *)
Fixpoint chunk_loop (fuel : nat) (seq : list string) (i : nat)
    (rows : list (list string)) : list (list string) :=
  match fuel with
  | O => rows
  | S fuel' =>
      if (i <? length seq)%nat
      then chunk_loop fuel' seq (i + 9) (rows ++ [Py.slice i (i + 9) seq])
      else rows
  end.

(** [_chunk_by9_tail_first]; the loop needs no more turns than [seq] has
    elements. *)
Definition _chunk_by9_tail_first (seq : list string) : list (list string) :=
  let n := length seq in
  let r := (n mod 9)%nat in
  if negb (r =? 0)%nat
  then chunk_loop n seq r [Py.slice 0 r seq]
  else chunk_loop n seq 0 [].

(** [Counter(l)]: the distinct elements in order of first occurrence, each
    with the number of its occurrences. *)
Fixpoint counter_add (t : string) (c : list (string * Z)) : list (string * Z) :=
  match c with
  | [] => [(t, 1)]
  | (k, n) :: c' =>
      if String.eqb k t then (k, n + 1) :: c' else (k, n) :: counter_add t c'
  end.

Definition Counter (l : list string) : list (string * Z) :=
  foldl (fun c t => counter_add t c) [] l.

(** The order of [sorted(..., key=lambda kv: kv[0])] on strings. *)
Definition key_le (a b : string * Z) : Prop := String.leb a.1 b.1 = true.

Global Instance key_le_dec a b : Decision (key_le a b).
Proof. unfold key_le. apply _. Defined.

Definition newline : string := String (ascii_of_nat 10) EmptyString.

(** The two headers, [f"[可摸剩余 {remain}/36]"] and
    [f"[待替换 {cur}/{len(emojis)}]"]. *)
Definition drawable_header (remain : Z) : string :=
  "[可摸剩余 " +:+ pretty remain +:+ "/36]".

Definition replace_header (cur n : Z) : string :=
  "[待替换 " +:+ pretty cur +:+ "/" +:+ pretty n +:+ "]".

(** [get_amulet_drawable_text]; [None] is an exception leaving the query. *)
Definition get_amulet_drawable_text (s : BotManager) : option string :=
  if negb (_amulet_active s && Py.truthy (_amulet_pool s)
           && Py.nonempty (_amulet_draw_ids s))
  then Some ""
  else
    objs ← Py.iter (_amulet_pool s);
    let id2tile := id2tile_of objs in
    let remain :=
      Py.clamp (_amulet_desktop_remain s) (Z.of_nat (length (_amulet_draw_ids s))) in
    if remain =? 0 then Some "[可摸剩余 0/36]"
    else
      let remain_ids := Py.last_n (Z.to_nat remain) (_amulet_draw_ids s) in
      let remain_tiles := tiles_of id2tile remain_ids in
      let rows := _chunk_by9_tail_first remain_tiles in
      let line_strs := map (fun row => Py.join " " (map _as_emoji row)) rows in
      let cnt := Counter remain_tiles in
      let stat_line :=
        Py.join " "
          (map (fun kv : string * Z => _as_emoji kv.1 +:+ "×" +:+ pretty kv.2)
               (merge_sort key_le cnt)) in
      let header := drawable_header remain in
      Some (Py.join newline ([header] ++ line_strs ++ [stat_line])).

(** The cursor as [get_amulet_replace_text] places and prints it: the
    stored cursor brought into [0 .. n], [n] the length of the queue. *)
Definition shown_cursor (s : BotManager) : Z :=
  let n := Z.of_nat (length (_amulet_replace_ids s)) in
  let cur := _amulet_replace_cursor s in
  let cur := if cur <? 0 then 0 else cur in
  if cur >? n then n else cur.

(** [seq.insert(i, x)] for [0 <= i <= len(seq)] *)
Definition list_insert_at {A : Type} (i : nat) (x : A) (l : list A) : list A :=
  take i l ++ x :: drop i l.

(** [get_amulet_replace_text] *)
Definition get_amulet_replace_text (s : BotManager) : option string :=
  if negb (_amulet_active s && Py.truthy (_amulet_pool s)
           && Py.nonempty (_amulet_replace_ids s))
  then Some ""
  else
    let stage := default 0 (int (stage (_amulet_info s))) in
    if negb (stage =? 2) then Some ""
    else
      objs ← Py.iter (_amulet_pool s);
      let id2tile := id2tile_of objs in
      let tiles := tiles_of id2tile (_amulet_replace_ids s) in
      let emojis := map _as_emoji tiles in
      let cur := shown_cursor s in
      let seq := list_insert_at (Z.to_nat cur) "｜" emojis in
      let text_line := Py.join " " seq in
      let header := replace_header cur (Z.of_nat (length emojis)) in
      Some (header +:+ newline +:+ text_line).

(** [is_in_amulet] *)
Definition is_in_amulet (s : BotManager) : bool := _amulet_active s.

(** [get_amulet_info] *)
Definition get_amulet_info (s : BotManager) : option AmuletInfo :=
  if _amulet_active s then Some (_amulet_info s) else None.

(** [get_amulet_pending_action] *)
Definition get_amulet_pending_action (s : BotManager) : option pyval :=
  _amulet_pending_action s.

(** [get_amulet_replace_queue] *)
Definition get_amulet_replace_queue (s : BotManager) : option (list string) :=
  if negb (_amulet_active s && Py.truthy (_amulet_pool s)
           && Py.nonempty (_amulet_replace_ids s))
  then Some []
  else
    objs ← Py.iter (_amulet_pool s);
    Some (tiles_of (id2tile_of objs) (_amulet_replace_ids s)).

(** [get_amulet_replace_cursor] *)
Definition get_amulet_replace_cursor (s : BotManager) : Z :=
  _amulet_replace_cursor s.

End Manager.

(** ** States the running manager can be in *)

(** From [__init__], by frames handled in the main loop; the other steps
    of the loop and the other methods of the manager touch, of the fields
    kept here, only [game_exception], which [reach_exception] leaves
    free. *)
Inductive reachable (py : Builtins) (liqi : LiqiMethod) : BotManager -> Prop :=
| reach_init : reachable py liqi init
| reach_msg s msg :
    reachable py liqi s -> reachable py liqi (loop_msg py liqi msg s)
| reach_exception s e :
    reachable py liqi s -> reachable py liqi (set_game_exception e s).

(** ** Sample instances, to run the definitions on concrete frames *)

(** A choice for the three outside functions: [int] reads no string, [str]
    of a value that is not a string gives a placeholder, no tile has an
    emoji. *)
Definition sample_builtins : Builtins :=
  {| int_of_str := fun _ => None; repr := fun _ => "<value>";
     tile_emoji := fun _ => None |}.

(** Eleven distinct method names in the style of the protocol. *)
Definition sample_methods : LiqiMethod :=
  {| checkNetworkDelay := ".lq.FastTest.checkNetworkDelay";
     heartbeat := ".lq.Lobby.heartbeat";
     routeHeartbeat := ".lq.Route.heartbeat";
     loginBeat := ".lq.Lobby.loginBeat";
     fetchAccountActivityData := ".lq.Lobby.fetchAccountActivityData";
     fetchServerTime := ".lq.Lobby.fetchServerTime";
     oauth2Login := ".lq.Lobby.oauth2Login";
     fetchAmuletActivityData := ".lq.Lobby.fetchAmuletActivityData";
     amuletActivityUpgrade := ".lq.Lobby.amuletActivityUpgrade";
     amuletActivityOperate := ".lq.Lobby.amuletActivityOperate";
     amuletActivityGiveup := ".lq.Lobby.amuletActivityGiveup" |}.

(** The tile record with id [i]; the tile symbols cycle through [1m] to
    [9m]. *)
Definition sample_tile (i : nat) : pyval :=
  PDict [("id", PInt (Z.of_nat i));
         ("tile", PStr (pretty (Z.of_nat (i mod 9 + 1)) +:+ "m"))].

(** A pool of 108 tile records with the ids 0 to 107. *)
Definition sample_pool : list pyval := map sample_tile (seq 0 108).

(** A frame of flow [fid] carrying a response [method] with [data]. *)
Definition response (fid method : string) (data : pyval) : WSMessage :=
  {| flow_id := fid; type := MESSAGE;
     content := Some {| liqi_id := 1; liqi_type := Res;
                        liqi_method := method; liqi_data := data |} |}.

(** The payload of a fetch response: the replacement stage, a round with
    the sample pool and no resume fields. *)
Definition sample_fetch_data : pyval :=
  PDict [("data",
          PDict [("game",
                  PDict [("stage", PInt 2);
                         ("round", PDict [("pool", PList sample_pool)])])])].

(** An event whose round has the one dirty field [field] with [value]. *)
Definition dirty_event (field : string) (value : pyval) : pyval :=
  PDict [("valueChanges",
          PDict [("round",
                  PDict [(field,
                          PDict [("dirty", PBool true); ("value", value)])])])].

(** An operate response with one such event. *)
Definition sample_operate (fid field : string) (value : pyval) : WSMessage :=
  response fid (amuletActivityOperate sample_methods)
    (PDict [("events", PList [dirty_event field value])]).

(** The manager after the fetch response, and after a replacement history
    of 1000 entries on top of it. *)
Definition after_fetch : BotManager :=
  loop_msg sample_builtins sample_methods
    (response "flow-1" (fetchAmuletActivityData sample_methods) sample_fetch_data)
    init.

Definition after_long_history : BotManager :=
  loop_msg sample_builtins sample_methods
    (sample_operate "flow-1" "used" (PList (replicate 1000 (PInt 0))))
    after_fetch.

(** A manager with the lobby flow ["L"] active, and the END frame of that
    flow. *)
Definition lobby_active : BotManager := set_lobby_flow_id (Some "L") init.

Definition end_of_L : WSMessage :=
  {| flow_id := "L"; type := END; content := None |}.

(** A manager whose three pool counters hold values of an earlier
    session. *)
Definition stale_counters : BotManager :=
  set_amulet_replace_cursor 7
    (set_amulet_desktop_remain 5 (set_amulet_used_ids {[1]} init)).

(** A manager with the used ids 1, 2 and 3. *)
Definition used_one_two_three : BotManager :=
  set_amulet_used_ids {[1; 2; 3]} init.

(** The manager after the fetch response, with 10 tiles left to draw. *)
Definition ten_left : BotManager := set_amulet_desktop_remain 10 after_fetch.

(** ** The vocabulary of the properties *)

(** Properties kept by a block of statements.

    [preserves P m]: if [P] holds of the object before [m], it holds of it
    after [m], whether [m] runs to its end or raises. *)
Definition preserves {A : Type} (P : BotManager -> Prop) (m : M A) : Prop :=
  forall s, P s -> P (m s).2.

(** The call of [on_exit_lobby] that ends the trace of [s'] was made while
    the lobby flow id read [v]. *)
Definition exit_lobby_called_with (s' : BotManager) (v : option string) : Prop :=
  exists c, last (calls s') = Some c /\ called c = on_exit_lobby
            /\ lobby_at_call c = v.

Definition logged (c : callback) (lobby game : option string) : call :=
  {| called := c; lobby_at_call := lobby; game_at_call := game |}.

(** The give-up method reaches its branch of the router: it is not on the
    ignore list, its name has [amulet] in it, and it is none of the three
    methods tested before it. *)
Definition giveup_routed (liqi : LiqiMethod) : Prop :=
  (amuletActivityGiveup liqi ∉ METHODS_TO_IGNORE liqi)
  /\ Py.occurs "amulet" (Py.lower (amuletActivityGiveup liqi)) = true
  /\ amuletActivityGiveup liqi <> fetchAmuletActivityData liqi
  /\ amuletActivityGiveup liqi <> amuletActivityUpgrade liqi
  /\ amuletActivityGiveup liqi <> amuletActivityOperate liqi.

(** [x] is a record whose ["id"] reads as the integer [z]. *)
Definition tile_with_id (py : Builtins) (x : pyval) (z : Z) : Prop :=
  exists d v, x = PDict d /\ Py.assoc "id" d = Some v /\ int py v = Some z.

(** [x] is a record whose ["id"] reads as [zt.1] and whose ["tile"] prints
    as [zt.2]. *)
Definition tile_record (py : Builtins) (x : pyval) (zt : Z * string) : Prop :=
  exists d i v,
    x = PDict d /\ Py.assoc "id" d = Some i /\ int py i = Some zt.1
    /\ Py.assoc "tile" d = Some v /\ str py v = zt.2.

(** Every element of [l] that has an ["id"] has one that [int] accepts:
    the comprehensions of the pool routine do not raise on [l]. *)
Definition ids_readable (py : Builtins) (l : list pyval) : Prop :=
  Forall (fun x => has_id x = true -> is_Some (Py.get x "id" ≫= int py)) l.

(** No pending action; a cursor that is not negative; a replace queue of
    at most 49 ids. *)
Definition steady (s : BotManager) : Prop :=
  _amulet_pending_action s = None
  /\ 0 <= _amulet_replace_cursor s
  /\ (length (_amulet_replace_ids s) <= 49)%nat.








(** * The code around the handlers

    The session queries of the manager, the vocabulary for replaying a
    frame, the second amulet state of [game/AmuletState.py], the icon
    downloader [download_amulet_icons.py] and the step the main loop takes
    after each message. *)

(** [utils.GameClientType], the two members [get_game_client_type] names. *)
Inductive GameClientType : Type := PLAYWRIGHT | PROXY.

(** Truth value of a flow id: [None] and the empty string are false. *)
Definition flow_truthy (f : option string) : bool :=
  match f with
  | Some id => negb (String.eqb id "")
  | None => false
  end.

(** [get_game_client_type]; [browser_running] is what
    [self.browser.is_running()] answers. *)
Definition get_game_client_type (browser_running : bool) (s : BotManager)
    : option GameClientType :=
  if browser_running then Some PLAYWRIGHT
  else if flow_truthy (lobby_flow_id s) || flow_truthy (game_flow_id s)
  then Some PROXY
  else None.

(** [is_in_game] *)
Definition is_in_game (s : BotManager) : bool :=
  match game_state s with Some _ => true | None => false end.

(** No flow recorded, no game, no collaborator called. *)
Definition idle_session (s : BotManager) : Prop :=
  lobby_flow_id s = None /\ game_flow_id s = None /\ game_state s = None
  /\ calls s = [].


(** The frames the router lets pass: START frames, END frames of a flow
    that is neither the game flow nor the lobby flow, and MESSAGE frames
    that do not parse, are no response, carry an ignored method, or a
    method without [amulet] in its name. *)
Definition passes_through (liqi : LiqiMethod) (msg : WSMessage)
    (s : BotManager) : Prop :=
  match type msg with
  | START => True
  | END => game_flow_id s <> Some (flow_id msg)
           /\ lobby_flow_id s <> Some (flow_id msg)
  | MESSAGE =>
      match content msg with
      | None => True
      | Some m =>
          liqi_type m <> Res
          \/ liqi_method m ∈ METHODS_TO_IGNORE liqi
          \/ Py.occurs "amulet" (Py.lower (liqi_method m)) = false
      end
  end.

(** What a block of the amulet handlers does to the object: for each of
    the fields it may write, the value written last, if any. *)
Record Patch : Type := {
  to_active : option bool;
  to_stage : option pyval;
  to_hands : option pyval;
  to_info_remain : option pyval;
  to_ended : option pyval;
  to_pool : option pyval;
  to_draw_ids : option (list Z);
  to_used_ids : option (gset Z);
  to_remain : option Z;
  to_replace_ids : option (list Z);
  to_cursor : option Z;
}.

Definition apply_patch (p : Patch) (s : BotManager) : BotManager :=
  {| game_state := game_state s; lobby_flow_id := lobby_flow_id s;
     game_flow_id := game_flow_id s; game_exception := game_exception s;
     _amulet_active := default (_amulet_active s) (to_active p);
     _amulet_info :=
       {| stage := default (stage (_amulet_info s)) (to_stage p);
          hands := default (hands (_amulet_info s)) (to_hands p);
          desktop_remain :=
            default (desktop_remain (_amulet_info s)) (to_info_remain p);
          ended := default (ended (_amulet_info s)) (to_ended p) |};
     _amulet_pending_action := _amulet_pending_action s;
     _amulet_pool := default (_amulet_pool s) (to_pool p);
     _amulet_draw_ids := default (_amulet_draw_ids s) (to_draw_ids p);
     _amulet_used_ids := default (_amulet_used_ids s) (to_used_ids p);
     _amulet_desktop_remain := default (_amulet_desktop_remain s) (to_remain p);
     _amulet_replace_ids := default (_amulet_replace_ids s) (to_replace_ids p);
     _amulet_replace_cursor := default (_amulet_replace_cursor s) (to_cursor p);
     calls := calls s |}.

(** The later of two writes. *)
Definition later {A : Type} (a b : option A) : option A :=
  match b with Some _ => b | None => a end.

(** First [p], then [q]. *)
Definition patch_seq (p q : Patch) : Patch :=
  {| to_active := later (to_active p) (to_active q);
     to_stage := later (to_stage p) (to_stage q);
     to_hands := later (to_hands p) (to_hands q);
     to_info_remain := later (to_info_remain p) (to_info_remain q);
     to_ended := later (to_ended p) (to_ended q);
     to_pool := later (to_pool p) (to_pool q);
     to_draw_ids := later (to_draw_ids p) (to_draw_ids q);
     to_used_ids := later (to_used_ids p) (to_used_ids q);
     to_remain := later (to_remain p) (to_remain q);
     to_replace_ids := later (to_replace_ids p) (to_replace_ids q);
     to_cursor := later (to_cursor p) (to_cursor q) |}.

Definition no_patch : Patch :=
  Build_Patch None None None None None None None None None None None.

(** The block [m] ends the same way from every state, and writes values
    that do not depend on the state. *)
Definition patchy {A : Type} (m : M A) : Prop :=
  exists (o : outcome A) (p : Patch), forall s, m s = (o, apply_patch p s).

(** The pool and the two segments cut from it. *)
Definition pool_and_segments (s : BotManager) : pyval * list Z * list Z :=
  (_amulet_pool s, _amulet_draw_ids s, _amulet_replace_ids s).

(** The three counters kept beside the pool. *)
Definition counters (s : BotManager) : gset Z * Z * Z :=
  (_amulet_used_ids s, _amulet_desktop_remain s, _amulet_replace_cursor s).

(** The round [rd] carries the field [k] as a dictionary with a true
    [dirty] and the value [v]. *)
Definition dirty_field (rd : list (string * pyval)) (k : string) (v : pyval) : Prop :=
  exists (f : list (string * pyval)) (flag : pyval),
    Py.assoc k rd = Some (PDict f) /\ Py.assoc "dirty" f = Some flag
    /\ Py.truthy flag = true /\ Py.assoc "value" f = Some v.

(** The event is a dictionary whose [valueChanges] holds the round [rd]. *)
Definition event_round (ev : pyval) (rd : list (string * pyval)) : Prop :=
  exists evd vc,
    ev = PDict evd /\ Py.assoc "valueChanges" evd = Some (PDict vc)
    /\ Py.assoc "round" vc = Some (PDict rd).

(** None of the four bookkeeping fields of the event's round is dirty. *)
Definition quiet (ev : pyval) : Prop :=
  forall vc r,
    Py.get ev "valueChanges" = Some vc ->
    Py.get (Py.or vc (PDict [])) "round" = Some r ->
    forall k f,
      k ∈ ["pool"; "usedDesktop"; "desktopRemain"; "used"] ->
      Py.get (Py.or r (PDict [])) k = Some f -> is_dirty f = false.

(** The condition under which [get_amulet_replace_text] renders: the
    amulet is active, the pool and the queue are there, and the stage reads
    as 2. *)
Definition replace_text_shown (py : Builtins) (s : BotManager) : Prop :=
  _amulet_active s = true /\ Py.truthy (_amulet_pool s) = true
  /\ _amulet_replace_ids s <> []
  /\ int py (stage (_amulet_info s)) = Some 2.

(** The pool is absent, a list or a string: what the pool routine and the
    give-up branch can store. *)
Definition pool_shape (s : BotManager) : Prop :=
  match _amulet_pool s with
  | PNone | PList _ | PStr _ => True
  | _ => False
  end.

(** ** [game/AmuletState.py] *)

Module AmuletGame.

(** The dataclass [AmuletState]; a field holds whatever an event puts
    there. *)
Record AmuletState : Type := {
  stage : pyval;
  hands : pyval;
  desktop_remain : pyval;
  ended : pyval;
}.

(** [AmuletGameState]: the state and the pending action ([PNone] for
    [None]). The bot is outside the sources: [decide] is its method, which
    returns an action or raises, and gives the state as it leaves it. *)
Record AmuletGameState : Type := {
  state : AmuletState;
  _pending : pyval;
}.

Definition new_state : AmuletState :=
  {| stage := PInt 0; hands := PList []; desktop_remain := PInt 0;
     ended := PBool false |}.

(** [AmuletGameState.__init__] *)
Definition init : AmuletGameState := {| state := new_state; _pending := PNone |}.

(** A block of statements on an [AmuletGameState]; an exception keeps the
    object as the statements before it left it. *)
Definition Stmt (A : Type) : Type :=
  AmuletGameState -> outcome A * AmuletGameState.

#[export] Instance Stmt_ret : MRet Stmt := fun A a g => (Returned a, g).

#[export] Instance Stmt_bind : MBind Stmt := fun A B f m g =>
  match m g with
  | (Returned a, g') => f a g'
  | (Raised, g') => (Raised, g')
  end.

Definition eval {A : Type} (e : option A) : Stmt A :=
  fun g => match e with Some a => (Returned a, g) | None => (Raised, g) end.

Definition assign (f : AmuletState -> AmuletState) : Stmt unit :=
  fun g => (Returned tt, {| state := f (state g); _pending := _pending g |}).

Definition set_stage (v : pyval) (a : AmuletState) : AmuletState :=
  {| stage := v; hands := hands a; desktop_remain := desktop_remain a;
     ended := ended a |}.

Definition set_hands (v : pyval) (a : AmuletState) : AmuletState :=
  {| stage := stage a; hands := v; desktop_remain := desktop_remain a;
     ended := ended a |}.

Definition set_desktop_remain (v : pyval) (a : AmuletState) : AmuletState :=
  {| stage := stage a; hands := hands a; desktop_remain := v;
     ended := ended a |}.

Definition set_ended (v : pyval) (a : AmuletState) : AmuletState :=
  {| stage := stage a; hands := hands a; desktop_remain := desktop_remain a;
     ended := v |}.

Fixpoint for_each {A : Type} (l : list A) (body : A -> Stmt unit) : Stmt unit :=
  match l with
  | [] => mret tt
  | x :: l' => body x ;; for_each l' body
  end.

(** [x is True] *)
Definition is_True (x : pyval) : bool :=
  match x with PBool true => true | _ => false end.

(** [_apply_event] *)
Definition _apply_event (ev : pyval) : Stmt unit :=
  vc ← eval (Py.get_default ev "valueChanges" (PDict []));
  c ← eval (Py.contains "stage" vc);
  (if c : bool then
     x ← eval (Py.subscript vc "stage"); assign (set_stage x)
   else mret tt) ;;
  round_v ← eval (Py.get_default vc "round" (PDict []));
  c ← eval (Py.contains "hands" round_v);
  (if c : bool then
     h ← eval (Py.subscript round_v "hands");
     d ← eval (Py.get h "dirty");
     if Py.truthy d then
       h ← eval (Py.subscript round_v "hands");
       v ← eval (Py.get_default h "value" (PList []));
       assign (set_hands v)
     else mret tt
   else mret tt) ;;
  c ← eval (Py.contains "desktopRemain" round_v);
  (if c : bool then
     r ← eval (Py.subscript round_v "desktopRemain");
     d ← eval (Py.get r "dirty");
     if Py.truthy d then
       r ← eval (Py.subscript round_v "desktopRemain");
       v ← eval (Py.subscript r "value");
       assign (set_desktop_remain v)
     else mret tt
   else mret tt) ;;
  e ← eval (Py.get vc "ended");
  if is_True e then assign (set_ended (PBool true)) else mret tt.

(** [self.bot.decide(self.state)]: the bot is handed the state object
    itself, so it may write to its fields before it returns or raises. *)
Definition decide_now (decide : AmuletState -> outcome pyval * AmuletState)
    : Stmt pyval :=
  fun g =>
    let (o, a) := decide (state g) in
    (o, {| state := a; _pending := _pending g |}).

(** [self._pending = action] *)
Definition set_pending (action : pyval) : Stmt unit :=
  fun g => (Returned tt, {| state := state g; _pending := action |}).

(** [input], on a decoded message; the result is the action, [PNone] for
    [return None]. *)
Definition input (decide : AmuletState -> outcome pyval * AmuletState)
    (liqi_msg : LiqiMsg) : Stmt pyval :=
  let m := liqi_method liqi_msg in
  let t := liqi_type liqi_msg in
  if negb (Py.occurs "amulet" (Py.lower m)) then mret PNone
  else if negb (bool_decide (t = Res)) then mret PNone
  else
    let data := liqi_data liqi_msg in
    e ← eval (Py.get_default data "events" (PList []));
    events ← eval (Py.iter e);
    for_each events _apply_event ;;
    action ← decide_now decide;
    set_pending action ;;
    mret action.

(** [get_pending_reaction] *)
Definition get_pending_reaction (g : AmuletGameState) : pyval := _pending g.

(** The events of a message, as [input] iterates over them. *)
Definition events_of (liqi_msg : LiqiMsg) : option (list pyval) :=
  Py.get_default (liqi_data liqi_msg) "events" (PList []) ≫= Py.iter.

(** [P] is kept by the block [m], whether it returns or raises. *)
Definition keeps {A : Type} (P : AmuletGameState -> Prop) (m : Stmt A) : Prop :=
  forall g, P g -> P (m g).2.

End AmuletGame.

(** ** [download_amulet_icons.py] *)

Module Icons.

Definition ID_START : Z := 1.
Definition ID_END : Z := 195.
Definition PAD_LEN : nat := 4.
Definition RETRIES : nat := 3.

Definition EXCLUDE_IDS : list Z :=
  [3; 5; 8; 10; 15; 21; 22; 26; 34; 39; 41; 43; 44; 45; 48; 50; 51; 52; 53;
   54; 55; 56; 57; 59; 60; 61; 62; 63; 68; 69; 70; 72; 73; 78; 81; 82; 83;
   84; 85; 86; 87; 88; 103; 104; 107; 109; 114; 117; 121; 123; 125; 140;
   150; 155].

(** [i in EXCLUDE_IDS] *)
Definition excluded (i : Z) : bool := bool_decide (i ∈ EXCLUDE_IDS).

(** [n] zeros. *)
Fixpoint zeros (n : nat) : string :=
  match n with
  | O => ""
  | S n' => String "0" (zeros n')
  end.

(** [s.zfill(width)]: zeros on the left up to [width], after a leading
    sign if there is one. *)
Definition zfill (width : nat) (s : string) : string :=
  let n := String.length s in
  if (width <=? n)%nat then s
  else
    match s with
    | String c rest =>
        if Ascii.eqb c "+" || Ascii.eqb c "-"
        then String c (zeros (width - n) +:+ rest)
        else zeros (width - n) +:+ s
    | EmptyString => zeros width
    end.

(** [fmt_id]; [str(i)] of an integer is its decimal numeral. *)
Definition fmt_id (i : Z) : string := zfill PAD_LEN (pretty i).

(** [f"fu_{padded}.png"] *)
Definition file_name (i : Z) : string := "fu_" +:+ fmt_id i +:+ ".png".

(** [url_for]: [BASE_URL] with [{id}] filled in. *)
Definition url_for (i : Z) : string :=
  "https://game.mahjongsoul.com/v0.11.172.w/scene/Assets/Resource/amulet/fu_"
  +:+ fmt_id i +:+ ".png".

(** The eight bytes 89 50 4E 47 0D 0A 1A 0A. *)
Definition PNG_MAGIC : string :=
  String (ascii_of_nat 137)
    (String "P" (String "N" (String "G"
       (String (ascii_of_nat 13) (String (ascii_of_nat 10)
          (String (ascii_of_nat 26) (String (ascii_of_nat 10) ""))))))).

(** [is_png]; a byte string is a [string]. *)
Definition is_png (bytes_head : string) : bool := String.prefix PNG_MAGIC bytes_head.

(** What [requests.get] gives: a response with its status code and
    content, or an exception with its text. *)
Inductive response : Type :=
| Http (status_code : Z) (content : option string)
| Failed (message : string).

(** What writing the file does: it succeeds, or it raises with a text,
    leaving no file or a file with some bytes. *)
Inductive write_result : Type :=
| Written
| WriteFailed (remains : option string) (message : string).

(** The two directories, each from file name to content. *)
Record Disk : Type := {
  used_dir : gmap string string;
  unused_dir : gmap string string;
}.

(** The world around one call: the response to each attempt, the result of
    each write, and whether [shutil.move] succeeds; a move that raises
    does so with a text and leaves the disk as given. *)
Record World : Type := {
  get : nat -> response;
  write : nat -> write_result;
  move : option (string * Disk);
}.

(** The dictionary [download_one] returns. *)
Record Result : Type := {
  id : Z;
  filename : string;
  url : string;
  status : string;
  note : string;
}.

Definition result (i : Z) (st nt : string) : Result :=
  {| id := i; filename := file_name i; url := url_for i; status := st;
     note := nt |}.

(** Store [content] under [fname], in the unused directory for an excluded
    id and in the used one otherwise. *)
Definition store (i : Z) (fname content : string) (d : Disk) : Disk :=
  if excluded i
  then {| used_dir := used_dir d; unused_dir := <[fname := content]> (unused_dir d) |}
  else {| used_dir := <[fname := content]> (used_dir d); unused_dir := unused_dir d |}.

(** [last_err or "unknown error"] *)
Definition error_note (last_err : option string) : string :=
  match last_err with
  | Some e => if String.eqb e "" then "unknown error" else e
  | None => "unknown error"
  end.

(** The loop [for attempt in range(1, RETRIES + 1)] and the [return] after
    it; [gets] counts the requests made. The pauses between attempts are
    left out. *)
Fixpoint attempts (w : World) (i : Z) (todo : list nat)
    (last_err : option string) (d : Disk) (gets : nat)
    : Result * Disk * nat :=
  match todo with
  | [] => (result i "error" (error_note last_err), d, gets)
  | attempt :: rest =>
      match get w attempt with
      | Failed message => attempts w i rest (Some message) d (S gets)
      | Http status_code body =>
          if negb (status_code =? 200)
          then attempts w i rest (Some ("http " +:+ pretty status_code)) d (S gets)
          else
            let content := default "" body in
            if (String.length content <? 8)%nat
               || negb (is_png (String.substring 0 8 content))
            then attempts w i rest (Some "not a valid PNG") d (S gets)
            else
              match write w attempt with
              | Written =>
                  (result i (if excluded i then "ok_excluded" else "ok_used") "",
                   store i (file_name i) content d, S gets)
              | WriteFailed remains message =>
                  attempts w i rest (Some message)
                    (match remains with
                     | Some bytes => store i (file_name i) bytes d
                     | None => d
                     end) (S gets)
              end
      end
  end.

(** [download_one] *)
Definition download_one (w : World) (i : Z) (d : Disk) : Result * Disk * nat :=
  let fname := file_name i in
  match used_dir d !! fname with
  | Some content =>
      if excluded i then
        match move w with
        | None =>
            (result i "moved_to_excluded" "moved existing used -> unused",
             {| used_dir := delete fname (used_dir d);
                unused_dir := <[fname := content]> (unused_dir d) |}, O)
        | Some (e, d') =>
            (result i "error" ("move used->unused failed: " +:+ e), d', O)
        end
      else (result i "skip_exist" "already in used", d, O)
  | None =>
      match unused_dir d !! fname with
      | Some content =>
          if excluded i then (result i "skip_exist" "already in unused", d, O)
          else
            match move w with
            | None =>
                (result i "moved_to_used" "moved existing unused -> used",
                 {| used_dir := <[fname := content]> (used_dir d);
                    unused_dir := delete fname (unused_dir d) |}, O)
            | Some (e, d') =>
                (result i "error" ("move unused->used failed: " +:+ e), d', O)
            end
      | None => attempts w i (seq 1 RETRIES) None d O
      end
  end.

(** The value of a string of decimal digits. *)
Fixpoint digits_value (acc : Z) (s : string) : option Z :=
  match s with
  | EmptyString => Some acc
  | String c rest =>
      let n := nat_of_ascii c in
      if (48 <=? n)%nat && (n <=? 57)%nat
      then digits_value (10 * acc + Z.of_nat (n - 48)) rest
      else None
  end.

(** The statuses [download_one] has a [return] for. *)
Definition produced_statuses : list string :=
  ["ok_used"; "ok_excluded"; "skip_exist"; "moved_to_excluded";
   "moved_to_used"; "error"].

(** The directory an id belongs in. *)
Definition home (i : Z) (d : Disk) : gmap string string :=
  if excluded i then unused_dir d else used_dir d.

(** The file [download_one] finds first: in the used directory, else in
    the unused one. *)
Definition found (i : Z) (d : Disk) : option string :=
  match used_dir d !! file_name i with
  | Some content => Some content
  | None => unused_dir d !! file_name i
  end.

(** [fmt_id] gives four digits that read back as the id. *)
Definition four_digits (i : Z) : bool :=
  (String.length (fmt_id i) =? 4)%nat
  && match digits_value 0 (fmt_id i) with
     | Some v => v =? i
     | None => false
     end.

(** [f] holds of the [n] integers from [i] on. *)
Fixpoint all_from (n : nat) (i : Z) (f : Z -> bool) : bool :=
  match n with
  | O => true
  | S n' => f i && all_from n' (i + 1) f
  end.

End Icons.

(** ** [_loop_post_msg] *)

Module Loop.

(** What [game_exception] holds: a [utils.MITMException], or an exception
    of another class. *)
Inductive game_error : Type :=
| MITMException
| OtherError.

(** The collaborator calls [_loop_post_msg] makes. *)
Inductive action : Type :=
| start_overlay
| stop_overlay
| automate_retry_pending
| decide_lobby_action.

#[export] Instance action_eq_dec : EqDecision action.
Proof. solve_decision. Defined.

(** What the collaborators answer during one call. *)
Record Readings : Type := {
  mitm_is_running : pyval;
  browser : bool;
  is_page_normal : pyval;
  enable_overlay : pyval;
  is_overlay_working : pyval;
}.

(** [v is False] *)
Definition is_False (v : pyval) : bool :=
  match v with
  | PBool false => true
  | _ => false
  end.

(** The MITM check: the first [if] of [_loop_post_msg]. *)
Definition check_mitm (r : Readings) (game_exception : option game_error)
    : option game_error :=
  if is_False (mitm_is_running r) then Some MITMException
  else
    match game_exception with
    | Some MITMException => None
    | other => other
    end.

(** The overlay check. *)
Definition check_overlay (r : Readings) : list action :=
  if browser r && Py.truthy (is_page_normal r) then
    if Py.truthy (enable_overlay r) then
      if is_False (is_overlay_working r) then [start_overlay] else []
    else
      if Py.truthy (is_overlay_working r) then [stop_overlay] else []
  else [].

(** [_loop_post_msg]: the exception kept and the calls made, in order. *)
Definition _loop_post_msg (r : Readings) (game_exception : option game_error)
    : option game_error * list action :=
  let game_exception := check_mitm r game_exception in
  (game_exception,
   check_overlay r ++ [automate_retry_pending]
     ++ (match game_exception with
         | Some _ => []
         | None => [decide_lobby_action]
         end)).

End Loop.

(** ** More sample instances *)

(** An upgrade request of the sample flow: an amulet method, but no
    response. *)
Definition upgrade_request : WSMessage :=
  {| flow_id := "flow-1"; type := MESSAGE;
     content := Some {| liqi_id := 2; liqi_type := Req;
                        liqi_method := amuletActivityUpgrade sample_methods;
                        liqi_data := PDict [] |} |}.

(** The fetch response of the sample flow. *)
Definition sample_fetch : WSMessage :=
  response "flow-1" (fetchAmuletActivityData sample_methods) sample_fetch_data.

(** A field of a round with a true [dirty] and the value [value]. *)
Definition dirty (value : pyval) : pyval :=
  PDict [("dirty", PBool true); ("value", value)].

(** The round of a game that is resumed: two tiles drawn, three replaced. *)
Definition resumed_round : list (string * pyval) :=
  [("pool", PList sample_pool); ("usedDesktop", PList (map PInt [23; 24]));
   ("desktopRemain", PInt 34); ("used", PList [PInt 59; PInt 60; PInt 61])].

(** The round of an upgrade event that brings a new pool together with a
    remaining count and a replacement history. *)
Definition upgrade_round : list (string * pyval) :=
  [("pool", dirty (PList sample_pool)); ("desktopRemain", dirty (PInt 30));
   ("used", dirty (PList [PInt 59]))].

Definition sample_upgrade_event : pyval :=
  PDict [("valueChanges", PDict [("round", PDict upgrade_round)])].

(** An event that changes the stage only. *)
Definition stage_event : pyval :=
  PDict [("valueChanges", PDict [("stage", PInt 3)])].

(** The sample pool with the record at index 30 replaced by one whose id is
    a string. *)
Definition broken_pool : list pyval :=
  <[30%nat := PDict [("id", PStr "x")]]> sample_pool.



(** The id and the tile symbol of the sample tile [i]. *)
Definition sample_record (i : nat) : Z * string :=
  (Z.of_nat i, pretty (Z.of_nat (i mod 9 + 1)) +:+ "m").

Definition sample_records : list (Z * string) := map sample_record (seq 0 108).

(** A game that has ended, a bot that always passes, and an operate
    response whose event carries [ended: False]. *)
Definition ended_game : AmuletGame.AmuletGameState :=
  {| AmuletGame.state := AmuletGame.set_ended (PBool true) AmuletGame.new_state;
     AmuletGame._pending := PNone |}.

Definition pass_bot (a : AmuletGame.AmuletState)
    : outcome pyval * AmuletGame.AmuletState :=
  (Returned (PDict [("type", PStr "pass")]), a).

Definition not_ended_msg : LiqiMsg :=
  {| liqi_id := 3; liqi_type := Res;
     liqi_method := amuletActivityOperate sample_methods;
     liqi_data :=
       PDict [("events",
               PList [PDict [("valueChanges",
                              PDict [("ended", PBool false);
                                     ("stage", PInt 4)])]])] |}.

(** An empty disk, a disk with the icon 3 in the used directory, and a
    world where the first request times out and the second one answers
    with a PNG. *)
Definition empty_disk : Icons.Disk :=
  {| Icons.used_dir := ∅; Icons.unused_dir := ∅ |}.

Definition disk_with_3 : Icons.Disk :=
  {| Icons.used_dir := {[ Icons.file_name 3 := "bytes" ]};
     Icons.unused_dir := ∅ |}.

Definition flaky_world : Icons.World :=
  {| Icons.get := fun attempt =>
       if (attempt =? 2)%nat
       then Icons.Http 200 (Some (Icons.PNG_MAGIC +:+ "IHDR"))
       else Icons.Failed "timed out";
     Icons.write := fun _ => Icons.Written;
     Icons.move := None |}.

(** The answers of the collaborators while the MITM server is stopped, and
    when it runs again. *)
Definition mitm_down : Loop.Readings :=
  {| Loop.mitm_is_running := PBool false; Loop.browser := true;
     Loop.is_page_normal := PBool false; Loop.enable_overlay := PBool true;
     Loop.is_overlay_working := PBool false |}.

Definition mitm_up : Loop.Readings :=
  {| Loop.mitm_is_running := PBool true; Loop.browser := true;
     Loop.is_page_normal := PBool true; Loop.enable_overlay := PBool true;
     Loop.is_overlay_working := PBool false |}.

(** * Properties *)

(** ** Running statements *)

Lemma run_bind {A B : Type} (m : M A) (f : A -> M B) (s : BotManager) :
  (m ≫= f) s =
  match m s with
  | (Returned a, s') => f a s'
  | (Raised, s') => (Raised, s')
  end.
Proof. reflexivity. Qed.

Lemma run_eval_bind {A B : Type} (e : option A) (a : A) (f : A -> M B) s :
  e = Some a -> (eval e ≫= f) s = f a s.
Proof. intros ->. reflexivity. Qed.

Lemma run_assign_bind {B : Type} (g : BotManager -> BotManager)
    (f : unit -> M B) s :
  (assign g ≫= f) s = f tt (g s).
Proof. reflexivity. Qed.

Lemma run_self_bind {B : Type} (f : BotManager -> M B) s :
  (self ≫= f) s = f s s.
Proof. reflexivity. Qed.

Section Preserves.

Context {A B : Type} (P : BotManager -> Prop).

Lemma preserves_ret (a : A) : preserves P (mret a).
Proof. intros s Hs. exact Hs. Qed.

Lemma preserves_eval (e : option A) : preserves P (eval e).
Proof. intros s Hs. unfold eval. destruct e; exact Hs. Qed.

Lemma preserves_self : preserves P self.
Proof. intros s Hs. exact Hs. Qed.

Lemma preserves_assign (g : BotManager -> BotManager) :
  (forall s, P s -> P (g s)) -> preserves P (assign g).
Proof. intros Hg s Hs. apply Hg, Hs. Qed.

Lemma preserves_bind (m : M A) (f : A -> M B) :
  preserves P m -> (forall a, preserves P (f a)) -> preserves P (m ≫= f).
Proof.
  intros Hm Hf s Hs. rewrite run_bind. specialize (Hm s Hs).
  destruct (m s) as [[a|] s1]; [apply Hf, Hm | exact Hm].
Qed.

Lemma preserves_eval_bind (e : option A) (f : A -> M B) :
  (forall a, e = Some a -> preserves P (f a)) -> preserves P (eval e ≫= f).
Proof.
  intros Hf s Hs. rewrite run_bind. unfold eval.
  destruct e as [a|]; [apply (Hf a eq_refl), Hs | exact Hs].
Qed.

Lemma preserves_self_bind (f : BotManager -> M B) :
  (forall s0, P s0 -> preserves P (f s0)) -> preserves P (self ≫= f).
Proof. intros Hf s Hs. rewrite run_self_bind. apply (Hf s Hs), Hs. Qed.

Lemma preserves_try_pass (body : M unit) :
  preserves P body -> preserves P (try_pass body).
Proof. intros Hb s Hs. apply Hb, Hs. Qed.

Lemma preserves_for_each (l : list A) (body : A -> M unit) :
  (forall x, preserves P (body x)) -> preserves P (for_each l body).
Proof.
  intros Hb. induction l as [|x l IH]; cbn [for_each].
  - intros s Hs. exact Hs.
  - intros s Hs. rewrite run_bind. specialize (Hb x s Hs).
    destruct (body x s) as [[[]|] s1]; [apply IH, Hb | exact Hb].
Qed.

End Preserves.

(** One step of a proof of [preserves]: follow the shape of the block. *)
Ltac preserve_step :=
  lazymatch goal with
  | |- preserves _ (mret _) => apply preserves_ret
  | |- preserves _ pass => apply preserves_ret
  | |- preserves _ (eval _) => apply preserves_eval
  | |- preserves _ self => apply preserves_self
  | |- preserves _ (try_pass _) => apply preserves_try_pass
  | |- preserves _ (for_each _ _) => apply preserves_for_each; intros ?
  | |- preserves _ (eval _ ≫= _) => apply preserves_eval_bind; intros ? ?
  | |- preserves _ (self ≫= _) => apply preserves_self_bind; intros ? ?
  | |- preserves _ (_ ≫= _) => apply preserves_bind; [| intros ?]
  | |- preserves _ (if ?b then _ else _) => destruct b eqn:?
  | |- preserves _ (match ?x with _ => _ end) => destruct x eqn:?
  | |- preserves _ (fire _) => unfold fire
  | |- preserves _ (assign_info _) => unfold assign_info
  end.

(** A block whose assignments all keep [P], each checked by computing. *)
Ltac preserve_frame :=
  repeat preserve_step;
  try (apply preserves_assign; intros ? ?; cbn;
       first [assumption | reflexivity]).

(** Unfold the statement combinators and compute. *)
Ltac run_stmts :=
  unfold pass, fire, assign_info, assign, self, eval, try_pass;
  unfold mbind, mret, M_bind, M_ret; cbn.

Section RouterFacts.

Variable py : Builtins.
Variable liqi : LiqiMethod.

Lemma oauth2Login_ignored : oauth2Login liqi ∈ METHODS_TO_IGNORE liqi.
Proof. unfold METHODS_TO_IGNORE. set_solver. Qed.

(** C1 (the code departs from the claim): a login response, type [Res] and
    method [oauth2Login], is matched by the ignore list, of which
    [oauth2Login] is the last entry, before the login branch is tried. The
    frame changes nothing: the lobby flow id is not assigned and
    [on_lobby_login] is not called. *)
Theorem C1_login_response_is_ignored (s : BotManager) (fid : string)
    (i : Z) (d : pyval) :
  _process_msg py liqi
    {| flow_id := fid; type := MESSAGE;
       content := Some {| liqi_id := i; liqi_type := Res;
                          liqi_method := oauth2Login liqi; liqi_data := d |} |} s
  = (Returned tt, s).
Proof.
  unfold _process_msg. cbn [type content liqi_method].
  rewrite bool_decide_eq_true_2 by apply oauth2Login_ignored.
  reflexivity.
Qed.

(** C9 (amended): on an END frame of the active lobby flow the lobby flow
    id is cleared first and [on_exit_lobby] is called afterwards, so the
    call is made with the lobby flow id already empty. The game flow is
    handled the other way round: when the frame also ends the game flow,
    [on_end_game] is called while the game flow id still holds it. *)
Theorem C9_lobby_id_cleared_before_exit_call (s : BotManager) (fid : string) :
  lobby_flow_id s = Some fid ->
  exists s',
    _process_msg py liqi {| flow_id := fid; type := END; content := None |} s
      = (Returned tt, s')
    /\ lobby_flow_id s' = None
    /\ exit_lobby_called_with s' None
    /\ (game_flow_id s <> Some fid ->
        calls s' = calls s ++ [logged on_exit_lobby None (game_flow_id s)])
    /\ (game_flow_id s = Some fid ->
        game_flow_id s' = None /\
        calls s' = calls s ++
          [logged overlay_clear_guidance (Some fid) (Some fid);
           logged on_end_game (Some fid) (Some fid);
           logged on_exit_lobby None None]).
Proof.
  intros Hl. unfold _process_msg, _process_end_game, exit_lobby_called_with.
  cbn [type flow_id].
  destruct (decide (Some fid = game_flow_id s)) as [Hg|Hg].
  - eexists. split.
    { run_stmts. rewrite (bool_decide_eq_true_2 _ Hg). cbn.
      rewrite Hl, bool_decide_eq_true_2 by reflexivity. reflexivity. }
    cbn. rewrite <- Hg.
    split; [reflexivity|]. split; [|split].
    + eexists. rewrite last_snoc. repeat split.
    + intros Hne. congruence.
    + intros _. rewrite <- !app_assoc. split; reflexivity.
  - eexists. split.
    { run_stmts. rewrite (bool_decide_eq_false_2 _ Hg). cbn.
      rewrite Hl, bool_decide_eq_true_2 by reflexivity. reflexivity. }
    cbn.
    split; [reflexivity|]. split; [|split].
    + eexists. rewrite last_snoc. repeat split.
    + intros _. reflexivity.
    + intros Heq. congruence.
Qed.

(** The game flow, for comparison: [on_end_game] is called while the game
    flow id still holds the ending flow, and the id is cleared after. *)
Lemma game_id_cleared_after_end_call (s : BotManager) (fid : string) :
  game_flow_id s = Some fid ->
  exists s',
    _process_msg py liqi {| flow_id := fid; type := END; content := None |} s
      = (Returned tt, s')
    /\ game_flow_id s' = None
    /\ logged on_end_game (lobby_flow_id s) (Some fid) ∈ calls s'.
Proof.
  intros Hg. unfold _process_msg, _process_end_game. cbn [type flow_id].
  run_stmts. rewrite Hg, bool_decide_eq_true_2 by reflexivity. cbn.
  destruct (bool_decide (Some fid = lobby_flow_id s)); eexists;
    (split; [reflexivity|]); cbn; (split; [reflexivity|]);
    unfold logged; rewrite Hg, !elem_of_app, !list_elem_of_singleton; auto.
Qed.

(** C8: a give-up response, processed in any state, leaves the amulet
    inactive, the pool absent, the draw segment, the replace queue and the
    used ids empty, the remaining count and the cursor 0 and the info at
    its defaults; the drawable text and the replace text are then empty. *)
Theorem C8_giveup_clears_amulet (s : BotManager) (fid : string) (i : Z)
    (d : pyval) :
  giveup_routed liqi ->
  exists s',
    _process_msg py liqi
      {| flow_id := fid; type := MESSAGE;
         content := Some {| liqi_id := i; liqi_type := Res;
                            liqi_method := amuletActivityGiveup liqi;
                            liqi_data := d |} |} s
      = (Returned tt, s')
    /\ is_in_amulet s' = false
    /\ _amulet_pool s' = PNone
    /\ _amulet_draw_ids s' = []
    /\ _amulet_replace_ids s' = []
    /\ _amulet_used_ids s' = ∅
    /\ _amulet_desktop_remain s' = 0
    /\ _amulet_replace_cursor s' = 0
    /\ _amulet_info s' = info_defaults
    /\ get_amulet_drawable_text py s' = Some ""
    /\ get_amulet_replace_text py s' = Some "".
Proof.
  intros (Hign & Hname & Hf & Hu & Ho).
  assert (Hlogin : amuletActivityGiveup liqi <> oauth2Login liqi).
  { intros Heq. apply Hign. rewrite Heq. apply oauth2Login_ignored. }
  eexists. split.
  { unfold _process_msg, amulet_dispatch. cbn [type content liqi_method liqi_type liqi_data].
    rewrite (bool_decide_eq_false_2 _ Hign).
    rewrite (proj2 (String.eqb_neq _ _) Hlogin), andb_false_r.
    rewrite Hname.
    rewrite bool_decide_eq_true_2 by reflexivity.
    rewrite (proj2 (String.eqb_neq _ _) Hf), (proj2 (String.eqb_neq _ _) Hu),
      (proj2 (String.eqb_neq _ _) Ho), String.eqb_refl.
    run_stmts. reflexivity. }
  cbn. repeat split.
Qed.

End RouterFacts.

(** ** Setting the pool *)

Section PoolFacts.

Variable py : Builtins.

Lemma ids_of_readable (l : list pyval) :
  ids_readable py l -> is_Some (ids_of py l).
Proof.
  induction 1 as [|x l Hx _ IH]; cbn; [eauto|].
  destruct (has_id x).
  - destruct (Hx eq_refl) as [z Hz].
    destruct (Py.get x "id") as [v|]; [|discriminate]. cbn in Hz |- *.
    rewrite Hz. cbn. destruct IH as [zs ->]. cbn. eauto.
  - exact IH.
Qed.

Lemma ids_readable_slice (lo hi : nat) (l : list pyval) :
  ids_readable py l -> ids_readable py (Py.slice lo hi l).
Proof. intros H. apply Forall_take, Forall_drop, H. Qed.

Lemma ids_of_tiles (xs : list pyval) (zs : list Z) :
  Forall2 (tile_with_id py) xs zs -> ids_of py xs = Some zs.
Proof.
  induction 1 as [|x z xs zs (d & v & -> & Hid & Hz) _ IH]; [reflexivity|].
  cbn. unfold has_id. cbn. rewrite Hid. cbn. rewrite Hz, IH. reflexivity.
Qed.

Lemma tiles_slice (lo hi : nat) (xs : list pyval) (zs : list Z) :
  Forall2 (tile_with_id py) xs zs ->
  Forall2 (tile_with_id py) (Py.slice lo hi xs) (Py.slice lo hi zs).
Proof. intros H. apply Forall2_take, Forall2_drop, H. Qed.

Lemma ids_of_length (xs : list pyval) (zs : list Z) :
  ids_of py xs = Some zs -> (length zs <= length xs)%nat.
Proof.
  revert zs. induction xs as [|x xs IH]; intros zs; cbn.
  - intros [= <-]. reflexivity.
  - destruct (has_id x).
    + destruct (Py.get x "id") as [v|]; [|discriminate]. cbn.
      destruct (int py v) as [z|]; [|discriminate]. cbn.
      destruct (ids_of py xs) as [zs'|]; [|discriminate]. cbn.
      intros [= <-]. cbn. specialize (IH zs' eq_refl). lia.
    + intros H. specialize (IH zs H). lia.
Qed.

Lemma slice_length {A : Type} (lo hi : nat) (l : list A) :
  (length (Py.slice lo hi l) <= hi - lo)%nat.
Proof. unfold Py.slice. rewrite length_take. lia. Qed.

(** The state the pool routine leaves when neither comprehension raises. *)
Lemma set_pool_run (s : BotManager) (l : list pyval) (draw rep : list Z) :
  ids_of py (Py.slice 23 59 l) = Some draw ->
  ids_of py (Py.slice 59 108 l) = Some rep ->
  _amulet_set_pool_from_array py (PList l) s =
  (Returned tt,
   set_amulet_replace_cursor 0
     (set_amulet_desktop_remain 36
        (set_amulet_used_ids ∅
           (set_amulet_replace_ids rep
              (set_amulet_draw_ids draw (set_amulet_pool (PList l) s)))))).
Proof.
  intros Hd Hr. unfold _amulet_set_pool_from_array. run_stmts.
  rewrite Hd. cbn. rewrite Hr. reflexivity.
Qed.

(** The comprehensions run to their end exactly on a list whose ids [int]
    accepts. *)
Lemma ids_of_is_readable (l : list pyval) :
  is_Some (ids_of py l) -> ids_readable py l.
Proof.
  induction l as [|x l IH]; intros Hsome; constructor.
  - intros Hx. cbn [ids_of] in Hsome. rewrite Hx in Hsome.
    destruct (Py.get x "id" ≫= int py) as [z|] eqn:Hz; [eauto|].
    exfalso. destruct (Py.get x "id") as [v|]; cbn in Hz, Hsome.
    + rewrite Hz in Hsome. cbn in Hsome. destruct Hsome as [? [=]].
    + destruct Hsome as [? [=]].
  - apply IH. cbn [ids_of] in Hsome. destruct (has_id x); [|exact Hsome].
    destruct (ids_of py l); [eauto|].
    exfalso. destruct (Py.get x "id") as [v|]; cbn in Hsome;
      [destruct (int py v); cbn in Hsome|]; destruct Hsome as [? [=]].
Qed.

(** The two ranges the pool routine reads, as one range. *)
Lemma slice_draw_replace {A : Type} (l : list A) :
  Py.slice 23 108 l = Py.slice 23 59 l ++ Py.slice 59 108 l.
Proof.
  unfold Py.slice.
  change (108 - 23)%nat with (36 + 49)%nat.
  change (59 - 23)%nat with 36%nat. change (108 - 59)%nat with 49%nat.
  rewrite <- take_take_drop, drop_drop. reflexivity.
Qed.

Lemma pool_range_readable (l : list pyval) :
  ids_readable py (Py.slice 23 108 l)
  <-> is_Some (ids_of py (Py.slice 23 59 l))
      /\ is_Some (ids_of py (Py.slice 59 108 l)).
Proof.
  unfold ids_readable. rewrite slice_draw_replace, Forall_app. split.
  - intros [Hd Hr]. split; apply ids_of_readable; assumption.
  - intros [Hd Hr]. split; apply ids_of_is_readable; assumption.
Qed.

(** The state the pool routine leaves when a comprehension raises: the
    pool is stored, and the draw segment if the first one has run. *)
Lemma set_pool_raise (s : BotManager) (l : list pyval) :
  ~ ids_readable py (Py.slice 23 108 l) ->
  exists s',
    _amulet_set_pool_from_array py (PList l) s = (Raised, s')
    /\ _amulet_pool s' = PList l
    /\ _amulet_used_ids s' = _amulet_used_ids s
    /\ _amulet_desktop_remain s' = _amulet_desktop_remain s
    /\ _amulet_replace_cursor s' = _amulet_replace_cursor s.
Proof.
  intros Hbad. unfold _amulet_set_pool_from_array. run_stmts.
  destruct (ids_of py (Py.slice 23 59 l)) as [draw|] eqn:Hd; cbn.
  - destruct (ids_of py (Py.slice 59 108 l)) as [rep|] eqn:Hr; cbn.
    + exfalso. apply Hbad, pool_range_readable. rewrite Hd, Hr. eauto.
    + eexists. split; [reflexivity|]. cbn. repeat split.
  - eexists. split; [reflexivity|]. cbn. repeat split.
Qed.

(** C2 (amended): the pool routine, run on a pool array in which every
    record of the indices 23 to 107 that has an ["id"] has one that [int]
    accepts, ends with the remaining count 36, the used ids empty and the
    cursor 0, whatever the three fields held before. Both callers, the
    fetch handler and the upgrade loop, run this one routine. On any other
    pool array the routine raises after it has stored the pool, and the
    three fields keep what they held before. *)
Theorem C2_pool_reset_defaults (s : BotManager) (l : list pyval) :
  (ids_readable py (Py.slice 23 108 l) ->
   exists s',
     _amulet_set_pool_from_array py (PList l) s = (Returned tt, s')
     /\ _amulet_desktop_remain s' = 36
     /\ _amulet_used_ids s' = ∅
     /\ _amulet_replace_cursor s' = 0)
  /\ (~ ids_readable py (Py.slice 23 108 l) ->
      exists s',
        _amulet_set_pool_from_array py (PList l) s = (Raised, s')
        /\ _amulet_pool s' = PList l
        /\ _amulet_desktop_remain s' = _amulet_desktop_remain s
        /\ _amulet_used_ids s' = _amulet_used_ids s
        /\ _amulet_replace_cursor s' = _amulet_replace_cursor s).
Proof.
  split.
  - intros Hl. apply pool_range_readable in Hl as [[draw Hd] [rep Hr]].
    eexists. split; [apply (set_pool_run s l draw rep Hd Hr)|].
    cbn. repeat split.
  - intros Hbad.
    destruct (set_pool_raise s l Hbad) as (s' & Hrun & Hp & Hu & Hr & Hc).
    exists s'. repeat split; assumption.
Qed.

(** C4: for a pool of 108 records with ids, the pool routine leaves as draw
    segment the 36 ids of the pool indices 23 to 58 and as replace queue
    the 49 ids of the indices 59 to 107, in pool order; the tile symbols
    play no part. *)
Theorem C4_segments_by_index (s : BotManager) (l : list pyval) (ids : list Z) :
  Forall2 (tile_with_id py) l ids ->
  length l = 108%nat ->
  exists s',
    _amulet_set_pool_from_array py (PList l) s = (Returned tt, s')
    /\ length (_amulet_draw_ids s') = 36%nat
    /\ length (_amulet_replace_ids s') = 49%nat
    /\ (forall i : nat, (i < 36)%nat ->
          _amulet_draw_ids s' !! i = ids !! (23 + i)%nat)
    /\ (forall i : nat, (i < 49)%nat ->
          _amulet_replace_ids s' !! i = ids !! (59 + i)%nat).
Proof.
  intros Hl Hlen.
  assert (Hids : length ids = 108%nat).
  { rewrite <- Hlen. symmetry. eapply Forall2_length, Hl. }
  eexists. split.
  { apply set_pool_run; apply ids_of_tiles, tiles_slice, Hl. }
  cbn. unfold Py.slice.
  rewrite !length_take, !length_drop, Hids.
  split; [reflexivity|]. split; [reflexivity|]. split.
  - intros i Hi. rewrite lookup_take_lt by lia. apply lookup_drop.
  - intros i Hi. rewrite lookup_take_lt by lia. apply lookup_drop.
Qed.

End PoolFacts.

(** ** The fetch and operate handlers *)

Section HandlerFacts.

Variable py : Builtins.

Lemma or_dict (k : string) (d : list (string * pyval)) (v y : pyval) :
  Py.assoc k d = Some v -> Py.or (PDict d) y = PDict d.
Proof. destruct d; [discriminate | reflexivity]. Qed.

Lemma or_None (y : pyval) : Py.or PNone y = y.
Proof. reflexivity. Qed.

Lemma mapM_int_PInt (V : list Z) : mapM (int py) (map PInt V) = Some V.
Proof. induction V as [|z V IH]; [reflexivity|]. cbn. rewrite IH. reflexivity. Qed.

Lemma or_list (l : list pyval) : Py.or (PList l) (PList []) = PList l.
Proof. destruct l; reflexivity. Qed.

(** The used ids are written by no statement of these blocks. *)
Lemma apply_desktop_remain_used_ids (X : gset Z) (rd : pyval) :
  preserves (fun s => _amulet_used_ids s = X) (apply_desktop_remain py rd).
Proof. unfold apply_desktop_remain. preserve_frame. Qed.

Lemma apply_used_used_ids (X : gset Z) (rd : pyval) :
  preserves (fun s => _amulet_used_ids s = X) (apply_used rd).
Proof. unfold apply_used. preserve_frame. Qed.

Lemma update_from_events_used_ids (X : gset Z) (events : list pyval) :
  preserves (fun s => _amulet_used_ids s = X) (_amulet_update_from_events events).
Proof. unfold _amulet_update_from_events, update_from_event. preserve_frame. Qed.

(** The fetch handler up to the pool routine, for a payload with a pool
    array. *)
Lemma fetch_reaches_pool (s : BotManager)
    (ld d g r : list (string * pyval)) (l : list pyval) :
  Py.assoc "data" ld = Some (PDict d) ->
  Py.assoc "game" d = Some (PDict g) ->
  Py.assoc "round" g = Some (PDict r) ->
  Py.assoc "pool" r = Some (PList l) ->
  l <> [] ->
  exists rest : M unit,
    _amulet_on_fetch_data py (PDict ld) s
    = (_amulet_set_pool_from_array py (PList l) ;; rest) s
    /\ (Py.assoc "usedDesktop" r = None ->
        Py.assoc "desktopRemain" r = None ->
        Py.assoc "used" r = None ->
        forall s1, exists s',
          rest s1 = (Returned tt, s')
          /\ _amulet_used_ids s' = ∅
          /\ _amulet_desktop_remain s' = 0
          /\ _amulet_replace_cursor s' = 0).
Proof.
  intros Hd Hg Hr Hp Hne.
  assert (Hl : Py.truthy (PList l) = true) by (destruct l; [contradiction|reflexivity]).
  eexists. split.
  { unfold _amulet_on_fetch_data.
    rewrite (run_eval_bind _ (PDict d)) by (cbn; rewrite Hd; reflexivity).
    rewrite (or_dict _ _ _ _ Hg).
    rewrite (run_eval_bind _ (PDict g)) by (cbn; rewrite Hg; reflexivity).
    replace (Py.truthy (PDict g)) with true
      by (destruct g; [discriminate|reflexivity]).
    cbn [negb].
    rewrite (run_eval_bind _ (PDict r)) by (cbn; rewrite Hr; reflexivity).
    cbn zeta. rewrite !(or_dict _ _ _ _ Hp).
    rewrite (run_eval_bind _ (PList l)) by (cbn; rewrite Hp; reflexivity).
    rewrite !or_list, Hl. reflexivity. }
  intros Hu Hdr Hur s1.
  eexists. split.
  { rewrite run_bind. unfold try_pass at 1.
    rewrite (run_eval_bind _ PNone) by (cbn; rewrite Hu; reflexivity).
    rewrite or_None.
    rewrite (run_eval_bind _ []) by reflexivity.
    rewrite (run_eval_bind _ []) by reflexivity.
    rewrite run_assign_bind.
    rewrite (run_eval_bind _ PNone) by (cbn; rewrite Hdr; reflexivity).
    rewrite (run_eval_bind _ 0) by reflexivity.
    rewrite run_assign_bind.
    rewrite (run_eval_bind _ PNone) by (cbn; rewrite Hur; reflexivity).
    reflexivity. }
  cbn. repeat split.
Qed.

(** C3 (amended): a fetch payload with a pool array of 108 elements, in
    which every record of the indices 23 to 107 that has an ["id"] has one
    that [int] accepts, and neither [usedDesktop] nor [desktopRemain] nor
    [used] in its round leaves the used ids empty and the cursor 0, and
    the remaining count 0: the handler writes the payload's
    [desktopRemain], read as 0 when the field is missing, over the 36 the
    pool routine has just set. When a record has an ["id"] that [int] does
    not accept, the handler raises in the pool routine and the three
    fields keep what they held before. *)
Theorem C3_fetch_without_resume_fields (s : BotManager)
    (ld d g r : list (string * pyval)) (l : list pyval) :
  Py.assoc "data" ld = Some (PDict d) ->
  Py.assoc "game" d = Some (PDict g) ->
  Py.assoc "round" g = Some (PDict r) ->
  Py.assoc "pool" r = Some (PList l) ->
  length l = 108%nat ->
  Py.assoc "usedDesktop" r = None ->
  Py.assoc "desktopRemain" r = None ->
  Py.assoc "used" r = None ->
  (ids_readable py (Py.slice 23 108 l) ->
   exists s',
     _amulet_on_fetch_data py (PDict ld) s = (Returned tt, s')
     /\ _amulet_used_ids s' = ∅
     /\ _amulet_desktop_remain s' = 0
     /\ _amulet_replace_cursor s' = 0)
  /\ (~ ids_readable py (Py.slice 23 108 l) ->
      exists s',
        _amulet_on_fetch_data py (PDict ld) s = (Raised, s')
        /\ _amulet_used_ids s' = _amulet_used_ids s
        /\ _amulet_desktop_remain s' = _amulet_desktop_remain s
        /\ _amulet_replace_cursor s' = _amulet_replace_cursor s).
Proof.
  intros Hd Hg Hr Hp Hlen Hu Hdr Hur.
  assert (Hne : l <> []) by (intros ->; discriminate Hlen).
  destruct (fetch_reaches_pool s ld d g r l Hd Hg Hr Hp Hne)
    as (rest & Hrun & Hrest).
  specialize (Hrest Hu Hdr Hur). rewrite Hrun. split.
  - intros Hok. apply pool_range_readable in Hok as [[draw Hdraw] [rep Hrep]].
    rewrite run_bind, (set_pool_run py _ l draw rep Hdraw Hrep).
    apply Hrest.
  - intros Hbad.
    destruct (set_pool_raise py s l Hbad) as (s' & Hraise & _ & Hused & Hrem & Hcur).
    exists s'. rewrite run_bind, Hraise.
    repeat split; assumption.
Qed.

(** C7: an operate event with a dirty [usedDesktop] of value [V] leaves as
    used ids exactly the set of the ids in [V], whatever the set held
    before and whatever else the event carries. *)
Theorem C7_used_ids_overwritten (s : BotManager)
    (ev vc rd u : list (string * pyval)) (dirty : pyval) (V : list Z) :
  Py.assoc "valueChanges" ev = Some (PDict vc) ->
  Py.assoc "round" vc = Some (PDict rd) ->
  Py.assoc "usedDesktop" rd = Some (PDict u) ->
  Py.assoc "dirty" u = Some dirty ->
  Py.truthy dirty = true ->
  Py.assoc "value" u = Some (PList (map PInt V)) ->
  _amulet_used_ids (_amulet_on_operate_events py [PDict ev] s).2
  = list_to_set V.
Proof.
  intros Hvc Hrd Hu Hdirty Htrue Hval.
  unfold _amulet_on_operate_events. cbn [for_each].
  assert (Hev : operate_event py (PDict ev) s =
                (apply_desktop_remain py (PDict rd) ;; apply_used (PDict rd))
                  (set_amulet_used_ids (list_to_set V) s)).
  { unfold operate_event.
    rewrite (run_eval_bind _ (PDict vc)) by (cbn; rewrite Hvc; reflexivity).
    cbn zeta. rewrite !(or_dict _ _ _ _ Hrd).
    rewrite (run_eval_bind _ (PDict rd)) by (cbn; rewrite Hrd; reflexivity).
    rewrite !(or_dict _ _ _ _ Hu).
    rewrite (run_eval_bind _ (PDict u)) by (cbn; rewrite Hu; reflexivity).
    replace (is_dirty (PDict u)) with true
      by (unfold is_dirty; cbn; rewrite Hdirty; cbn; congruence).
    rewrite run_bind.
    rewrite (run_eval_bind _ (PList (map PInt V))) by (cbn; rewrite Hval; reflexivity).
    rewrite or_list.
    rewrite (run_eval_bind _ (map PInt V)) by reflexivity.
    rewrite (run_eval_bind _ V) by apply mapM_int_PInt.
    reflexivity. }
  assert (Hkeep : preserves (fun s0 => _amulet_used_ids s0 = list_to_set V)
            (apply_desktop_remain py (PDict rd) ;; apply_used (PDict rd))).
  { apply preserves_bind; [apply apply_desktop_remain_used_ids|].
    intros _. apply apply_used_used_ids. }
  specialize (Hkeep (set_amulet_used_ids (list_to_set V) s) eq_refl).
  rewrite <- Hev in Hkeep.
  rewrite !run_bind.
  destruct (operate_event py (PDict ev) s) as [[[]|] s1]; cbn in Hkeep |- *.
  - apply (update_from_events_used_ids (list_to_set V) [PDict ev] s1 Hkeep).
  - exact Hkeep.
Qed.

End HandlerFacts.

(** ** What holds in every reachable state *)

Lemma len_nonneg (x : pyval) (n : Z) : Py.len x = Some n -> 0 <= n.
Proof. destruct x; cbn; intros [= <-]; lia. Qed.

Lemma slice_elems_length (lo hi : nat) (x : pyval) (l : list pyval) :
  Py.slice_elems lo hi x = Some l -> (length l <= hi - lo)%nat.
Proof. destruct x; cbn; intros [= <-]; apply slice_length. Qed.

Section Reachability.

Variable py : Builtins.
Variable liqi : LiqiMethod.

(** An assignment keeps [steady]: compute the three fields after it. *)
Ltac steady_assign :=
  repeat match goal with
         | H : Py.len _ = Some _ |- _ => apply len_nonneg in H
         end;
  apply preserves_assign; intros ? (? & ? & ?); unfold steady; cbn;
  repeat split; try assumption; try lia.

Ltac steady_block := repeat preserve_step; try steady_assign.

Lemma set_pool_steady (pool : pyval) :
  preserves steady (_amulet_set_pool_from_array py pool).
Proof.
  unfold _amulet_set_pool_from_array. steady_block.
  match goal with
  | Hs : Py.slice_elems 59%nat 108%nat _ = Some ?l,
    Hi : ids_of py ?l = Some _ |- _ =>
      apply slice_elems_length in Hs; apply ids_of_length in Hi; lia
  end.
Qed.

Lemma apply_desktop_remain_steady (rd : pyval) :
  preserves steady (apply_desktop_remain py rd).
Proof. unfold apply_desktop_remain. steady_block. Qed.

Lemma apply_used_steady (rd : pyval) : preserves steady (apply_used rd).
Proof. unfold apply_used. steady_block. Qed.

Lemma update_from_events_steady (events : list pyval) :
  preserves steady (_amulet_update_from_events events).
Proof. unfold _amulet_update_from_events, update_from_event. steady_block. Qed.

Lemma fetch_steady (liqi_data : pyval) :
  preserves steady (_amulet_on_fetch_data py liqi_data).
Proof.
  unfold _amulet_on_fetch_data, fetch_info.
  repeat first [apply set_pool_steady | preserve_step]; try steady_assign.
Qed.

Lemma upgrade_steady (events : list pyval) :
  preserves steady (_amulet_on_upgrade_events py events).
Proof.
  unfold _amulet_on_upgrade_events, upgrade_event.
  repeat first [apply set_pool_steady | apply apply_desktop_remain_steady
               | apply apply_used_steady | apply update_from_events_steady
               | preserve_step].
Qed.

Lemma operate_steady (events : list pyval) :
  preserves steady (_amulet_on_operate_events py events).
Proof.
  unfold _amulet_on_operate_events, operate_event.
  repeat first [apply apply_desktop_remain_steady
               | apply apply_used_steady | apply update_from_events_steady
               | preserve_step]; try steady_assign.
Qed.

Lemma process_msg_steady (msg : WSMessage) :
  preserves steady (_process_msg py liqi msg).
Proof.
  unfold _process_msg, amulet_dispatch, _process_end_game.
  repeat first [apply fetch_steady | apply upgrade_steady
               | apply operate_steady | preserve_step]; try steady_assign.
Qed.

Lemma loop_msg_steady (msg : WSMessage) (s : BotManager) :
  steady s -> steady (loop_msg py liqi msg s).
Proof.
  intros Hs. unfold loop_msg.
  pose proof (process_msg_steady msg s Hs) as H.
  destruct (_process_msg py liqi msg s) as [[[]|] s']; [exact H|].
  destruct H as (? & ? & ?). unfold steady. cbn. repeat split; assumption.
Qed.

Lemma reachable_steady (s : BotManager) : reachable py liqi s -> steady s.
Proof.
  induction 1 as [|s msg _ IH|s e _ IH].
  - unfold steady. cbn. repeat split; lia.
  - apply loop_msg_steady, IH.
  - destruct IH as (? & ? & ?). unfold steady. cbn. repeat split; assumption.
Qed.

(** The lobby flow id is never set: its one assignment of a flow id sits
    in the login branch, which the ignore list keeps from running. *)
Lemma process_msg_lobby_unset (msg : WSMessage) :
  preserves (fun s => lobby_flow_id s = None) (_process_msg py liqi msg).
Proof.
  unfold _process_msg, amulet_dispatch, _process_end_game,
    _amulet_on_fetch_data, _amulet_on_upgrade_events, _amulet_on_operate_events,
    upgrade_event, operate_event, apply_desktop_remain, apply_used,
    _amulet_update_from_events, update_from_event, fetch_info,
    _amulet_set_pool_from_array.
  preserve_frame. exfalso.
  match goal with
  | Hign : bool_decide (_ ∈ METHODS_TO_IGNORE liqi) = false,
    Hlogin : _ && String.eqb _ (oauth2Login liqi) = true |- _ =>
      apply andb_true_iff in Hlogin as [_ Hlogin];
      apply String.eqb_eq in Hlogin;
      apply bool_decide_eq_false in Hign; apply Hign;
      rewrite Hlogin; apply oauth2Login_ignored
  end.
Qed.

Lemma reachable_lobby_unset (s : BotManager) :
  reachable py liqi s -> lobby_flow_id s = None.
Proof.
  induction 1 as [|s msg _ IH|s e _ IH]; [reflexivity | | exact IH].
  unfold loop_msg. pose proof (process_msg_lobby_unset msg s IH) as H.
  destruct (_process_msg py liqi msg s) as [[[]|] s']; exact H.
Qed.

(** C10: in every reachable state [get_amulet_pending_action] returns
    [None]; no statement of the manager assigns the field after
    [__init__]. *)
Theorem C10_pending_action_always_none (s : BotManager) :
  reachable py liqi s -> get_amulet_pending_action s = None.
Proof. intros H. apply (reachable_steady s H). Qed.

Lemma shown_cursor_range (s : BotManager) :
  0 <= shown_cursor s <= Z.of_nat (length (_amulet_replace_ids s)).
Proof.
  unfold shown_cursor.
  destruct (Z.ltb_spec (_amulet_replace_cursor s) 0);
    repeat match goal with |- context [(?a >? ?b)] =>
      destruct (Z.gtb_spec a b) end; lia.
Qed.

(** C5 (amended): in every reachable state the cursor printed in the
    header of the replace text lies in [0, 49], being the stored cursor
    brought into the range of the queue; [get_amulet_replace_cursor]
    returns the stored cursor as it is, which is never negative but is not
    bounded by 49: with a full queue and a stored cursor of 1000 the
    header prints 49 and the query returns 1000. *)
Theorem C5_cursor_clamped_in_text_only (s : BotManager) :
  reachable py liqi s ->
  0 <= get_amulet_replace_cursor s
  /\ get_amulet_replace_cursor s = _amulet_replace_cursor s
  /\ 0 <= shown_cursor s <= 49
  /\ (forall t, get_amulet_replace_text py s = Some t -> t <> "" ->
        exists line,
          t = replace_header (shown_cursor s)
                (Z.of_nat (length (_amulet_replace_ids s)))
              +:+ newline +:+ line)
  /\ (_amulet_replace_cursor s = 1000 ->
      length (_amulet_replace_ids s) = 49%nat ->
      shown_cursor s = 49 /\ get_amulet_replace_cursor s = 1000).
Proof.
  intros Hr. destruct (reachable_steady s Hr) as (_ & Hcur & Hlen).
  pose proof (shown_cursor_range s) as Hshown.
  split; [exact Hcur|]. split; [reflexivity|]. split; [lia|]. split.
  - intros t Ht Hne. unfold get_amulet_replace_text in Ht.
    destruct (negb _); [congruence|].
    destruct (negb _); [congruence|].
    destruct (Py.iter (_amulet_pool s)) as [objs|]; [|discriminate].
    cbn in Ht. injection Ht as <-.
    unfold tiles_of. rewrite !length_map. eexists. reflexivity.
  - intros H1000 H49. split; [|exact H1000].
    unfold shown_cursor. rewrite H1000, H49. reflexivity.
Qed.

End Reachability.

(** ** The drawable text *)

Section ChunkFacts.

Variable seq : list string.



End ChunkFacts.

(** *** The tally *)








Global Instance key_le_total : Total key_le.
Proof. intros a b. unfold key_le. apply String.leb_total. Qed.


Section DrawableFacts.

Variable py : Builtins.

Lemma id2tile_of_snoc (l : list pyval) (x : pyval) :
  id2tile_of py (l ++ [x]) =
  match id2tile_entry py x with
  | Some (z, t) => <[z := t]> (id2tile_of py l)
  | None => id2tile_of py l
  end.
Proof. unfold id2tile_of. rewrite foldl_snoc. reflexivity. Qed.

(** The table built from a pool of records with distinct ids gives for
    each id the symbol of its record. *)
Lemma id2tile_of_lookup (l : list pyval) (zts : list (Z * string)) :
  Forall2 (tile_record py) l zts ->
  NoDup zts.*1 ->
  forall z t, (z, t) ∈ zts -> id2tile_of py l !! z = Some t.
Proof.
  revert zts. induction l as [|x l IH] using rev_ind; intros zts Hrec Hnd z t Hin.
  - apply Forall2_nil_inv_l in Hrec. subst zts. inversion Hin.
  - apply Forall2_app_inv_l in Hrec as (zts1 & zts2 & Hrec1 & Hrec2 & ->).
    apply Forall2_cons_inv_l in Hrec2 as ([z' t'] & zts3 & Hx & Hnil & ->).
    apply Forall2_nil_inv_l in Hnil. subst zts3.
    destruct Hx as (d & i & v & -> & Hid & Hz & Htile & Ht). cbn in Hz, Ht.
    rewrite id2tile_of_snoc. unfold id2tile_entry. cbn.
    rewrite Htile, Hid. cbn. rewrite Hz. cbn. rewrite Ht.
    rewrite fmap_app in Hnd. apply NoDup_app in Hnd as (Hnd1 & Hfresh & _).
    apply elem_of_app in Hin as [Hin|Hin].
    + rewrite lookup_insert_ne.
      * apply (IH zts1 Hrec1 Hnd1 z t Hin).
      * intros <-. apply (Hfresh z').
        -- apply (list_elem_of_fmap_2 fst _ _ Hin).
        -- cbn. left.
    + apply list_elem_of_singleton in Hin. injection Hin as -> ->.
      apply lookup_insert_eq.
Qed.

(** Looking the ids of such a pool up in its table gives the symbols. *)
Lemma tiles_of_records (l : list pyval) (zts : list (Z * string)) :
  Forall2 (tile_record py) l zts ->
  NoDup zts.*1 ->
  tiles_of (id2tile_of py l) zts.*1 = zts.*2.
Proof.
  intros Hrec Hnd. unfold tiles_of.
  change (map ?f (?g <$> ?xs)) with (f <$> (g <$> xs)).
  rewrite <- list_fmap_compose. apply list_fmap_ext.
  intros k [z t] Hk. cbn.
  rewrite (id2tile_of_lookup l zts Hrec Hnd z t); [reflexivity|].
  apply (list_elem_of_lookup_2 _ _ _ Hk).
Qed.




End DrawableFacts.

(** ** Runs on concrete frames *)

Lemma C8_giveup_clears_amulet_witness :
  giveup_routed sample_methods /\
  exists s',
    _process_msg sample_builtins sample_methods
      (response "flow-1" (amuletActivityGiveup sample_methods) (PDict [])) init
      = (Returned tt, s')
    /\ is_in_amulet s' = false.
Proof.
  assert (H : giveup_routed sample_methods).
  { unfold giveup_routed. split; [|repeat split; discriminate].
    apply (bool_decide_unpack _). vm_compute. exact I. }
  split; [exact H|].
  destruct (C8_giveup_clears_amulet sample_builtins sample_methods init
              "flow-1" 1 (PDict []) H) as (s' & Hrun & Hact & _).
  exists s'. split; [exact Hrun | exact Hact].
Defined.

(** C9, the claim as stated, fails: with the lobby flow ["L"] active, the
    END frame of ["L"] calls [on_exit_lobby] when the lobby flow id no
    longer holds ["L"]. *)
Lemma C9_counterexample :
  calls (_process_msg sample_builtins sample_methods end_of_L lobby_active).2
  = [logged on_exit_lobby None None]
  /\ ~ exit_lobby_called_with
        (_process_msg sample_builtins sample_methods end_of_L lobby_active).2
        (Some "L").
Proof.
  unfold exit_lobby_called_with. cbn. split; [reflexivity|].
  intros (c & Hlast & _ & Hseen). cbn in Hlast.
  injection Hlast as <-. discriminate Hseen.
Qed.

Lemma C9_lobby_id_cleared_before_exit_call_witness :
  lobby_flow_id lobby_active = Some "L" /\
  exists s',
    _process_msg sample_builtins sample_methods end_of_L lobby_active
      = (Returned tt, s')
    /\ exit_lobby_called_with s' None.
Proof.
  split; [reflexivity|].
  destruct (C9_lobby_id_cleared_before_exit_call sample_builtins sample_methods
              lobby_active "L" eq_refl)
    as (s' & Hrun & _ & Hseen & _).
  exists s'. split; [exact Hrun | exact Hseen].
Defined.

Lemma sample_tiles (l : list nat) :
  Forall2 (tile_with_id sample_builtins) (map sample_tile l) (map Z.of_nat l).
Proof.
  induction l as [|i l IH]; constructor; [|exact IH].
  eexists _, _. split; [reflexivity|]. split; reflexivity.
Qed.

Lemma sample_pool_readable : ids_readable sample_builtins sample_pool.
Proof. apply (bool_decide_unpack _). vm_compute. exact I. Qed.

Lemma sample_range_readable :
  ids_readable sample_builtins (Py.slice 23 108 sample_pool).
Proof. apply ids_readable_slice, sample_pool_readable. Qed.

Lemma C2_pool_reset_defaults_witness :
  ids_readable sample_builtins (Py.slice 23 108 sample_pool) /\
  exists s',
    _amulet_set_pool_from_array sample_builtins (PList sample_pool)
      stale_counters = (Returned tt, s')
    /\ _amulet_desktop_remain s' = 36
    /\ _amulet_used_ids s' = ∅
    /\ _amulet_replace_cursor s' = 0.
Proof.
  split; [exact sample_range_readable|].
  apply (proj1 (C2_pool_reset_defaults sample_builtins stale_counters
                  sample_pool)).
  exact sample_range_readable.
Defined.

(** C2, the claim as stated, fails: on the pool whose record 30 has a
    string as id the routine raises, and the remaining count, the used ids
    and the cursor of the earlier session are still there: 5, not 36, the
    set of 1, not the empty set, and 7, not 0. *)
Lemma C2_counterexample :
  _amulet_set_pool_from_array sample_builtins (PList broken_pool)
    stale_counters
  = (Raised, set_amulet_pool (PList broken_pool) stale_counters)
  /\ _amulet_desktop_remain
       (set_amulet_pool (PList broken_pool) stale_counters) = 5
  /\ _amulet_used_ids
       (set_amulet_pool (PList broken_pool) stale_counters) = {[1]}
  /\ _amulet_replace_cursor
       (set_amulet_pool (PList broken_pool) stale_counters) = 7
  /\ _amulet_desktop_remain
       (set_amulet_pool (PList broken_pool) stale_counters) <> 36.
Proof.
  split; [vm_compute; reflexivity|].
  cbn. repeat split. discriminate.
Qed.

Lemma C4_segments_by_index_witness :
  Forall2 (tile_with_id sample_builtins) sample_pool (map Z.of_nat (seq 0 108))
  /\ length sample_pool = 108%nat
  /\ exists s',
    _amulet_set_pool_from_array sample_builtins (PList sample_pool) init
      = (Returned tt, s')
    /\ length (_amulet_draw_ids s') = 36%nat
    /\ length (_amulet_replace_ids s') = 49%nat
    /\ (forall i : nat, (i < 36)%nat ->
          _amulet_draw_ids s' !! i = map Z.of_nat (seq 0 108) !! (23 + i)%nat)
    /\ (forall i : nat, (i < 49)%nat ->
          _amulet_replace_ids s' !! i = map Z.of_nat (seq 0 108) !! (59 + i)%nat).
Proof.
  split; [apply sample_tiles|]. split; [reflexivity|].
  apply (C4_segments_by_index sample_builtins init sample_pool
           (map Z.of_nat (seq 0 108)) (sample_tiles (seq 0 108))).
  reflexivity.
Defined.

(** C3, the claim as stated, fails: after the fetch payload with the 108
    sample tiles and no resume field the remaining count is 0, not 36. *)
Lemma C3_counterexample :
  _amulet_desktop_remain
    (_amulet_on_fetch_data sample_builtins sample_fetch_data init).2 = 0
  /\ _amulet_desktop_remain
       (_amulet_on_fetch_data sample_builtins sample_fetch_data init).2 <> 36.
Proof. vm_compute. split; [reflexivity | discriminate]. Qed.

Lemma C3_fetch_without_resume_fields_witness :
  exists s',
    _amulet_on_fetch_data sample_builtins sample_fetch_data init
      = (Returned tt, s')
    /\ _amulet_used_ids s' = ∅
    /\ _amulet_desktop_remain s' = 0
    /\ _amulet_replace_cursor s' = 0.
Proof.
  apply (proj1 (C3_fetch_without_resume_fields sample_builtins init
           [("data",
             PDict [("game",
                     PDict [("stage", PInt 2);
                            ("round", PDict [("pool", PList sample_pool)])])])]
           [("game",
             PDict [("stage", PInt 2);
                    ("round", PDict [("pool", PList sample_pool)])])]
           [("stage", PInt 2); ("round", PDict [("pool", PList sample_pool)])]
           [("pool", PList sample_pool)]
           sample_pool
           eq_refl eq_refl eq_refl eq_refl eq_refl eq_refl eq_refl eq_refl)).
  exact sample_range_readable.
Defined.

(** The set [{1, 2, 3}] overwritten by the dirty value [[4]]. *)
Lemma C7_used_ids_overwritten_witness :
  _amulet_used_ids used_one_two_three = {[1; 2; 3]}
  /\ _amulet_used_ids
       (_amulet_on_operate_events sample_builtins
          [dirty_event "usedDesktop" (PList [PInt 4])] used_one_two_three).2
     = {[4]}.
Proof.
  split; [reflexivity|]. etransitivity; [|reflexivity].
  exact (C7_used_ids_overwritten sample_builtins used_one_two_three
             [("valueChanges",
               PDict [("round",
                       PDict [("usedDesktop",
                               PDict [("dirty", PBool true);
                                      ("value", PList [PInt 4])])])])]
             [("round",
               PDict [("usedDesktop",
                       PDict [("dirty", PBool true);
                              ("value", PList [PInt 4])])])]
             [("usedDesktop",
               PDict [("dirty", PBool true); ("value", PList [PInt 4])])]
             [("dirty", PBool true); ("value", PList [PInt 4])]
             (PBool true) [4]
             eq_refl eq_refl eq_refl eq_refl eq_refl eq_refl).
Defined.

Lemma after_long_history_reachable :
  reachable sample_builtins sample_methods after_long_history.
Proof. apply reach_msg, reach_msg, reach_init. Qed.

(** C5, the claim as stated, fails: after a replacement history of 1000
    entries [get_amulet_replace_cursor] returns 1000, which is not within
    [0, 49]; the header of the replace text does show 49. *)
Lemma C5_counterexample :
  reachable sample_builtins sample_methods after_long_history
  /\ get_amulet_replace_cursor after_long_history = 1000
  /\ ~ (0 <= get_amulet_replace_cursor after_long_history <= 49)
  /\ shown_cursor after_long_history = 49.
Proof.
  split; [exact after_long_history_reachable|].
  vm_compute. repeat split. intros [_ H]. apply H. reflexivity.
Qed.

Lemma C5_cursor_clamped_in_text_only_witness :
  reachable sample_builtins sample_methods after_long_history
  /\ 0 <= shown_cursor after_long_history <= 49
  /\ get_amulet_replace_cursor after_long_history = 1000.
Proof.
  split; [exact after_long_history_reachable|].
  destruct (C5_cursor_clamped_in_text_only sample_builtins sample_methods
              after_long_history after_long_history_reachable)
    as (_ & _ & Hshown & _ & H1000).
  split; [exact Hshown|].
  apply H1000; vm_compute; reflexivity.
Defined.

Lemma C10_pending_action_always_none_witness :
  reachable sample_builtins sample_methods after_fetch
  /\ get_amulet_pending_action after_fetch = None.
Proof.
  assert (H : reachable sample_builtins sample_methods after_fetch)
    by apply reach_msg, reach_init.
  split; [exact H|].
  apply (C10_pending_action_always_none sample_builtins sample_methods
           after_fetch H).
Defined.

(** The drawable text of the sample pool with 10 tiles left: a first row of
    one tile, a row of nine, and the tally. *)
Example drawable_text_of_ten :
  get_amulet_drawable_text sample_builtins ten_left
  = Some "[可摸剩余 10/36]
5m
6m 7m 8m 9m 1m 2m 3m 4m 5m
1m×1 2m×1 3m×1 4m×1 5m×2 6m×1 7m×1 8m×1 9m×1".
Proof. vm_compute. reflexivity. Qed.

(** The replace text after the history of 1000 entries: the cursor is shown
    at the end of the queue, as 49. *)
Example replace_header_after_long_history :
  exists line,
    get_amulet_replace_text sample_builtins after_long_history
    = Some ("[待替换 49/49]" +:+ newline +:+ line).
Proof. eexists. vm_compute. reflexivity. Qed.




(** * Properties of the code around the handlers *)

(** ** The session fields *)

(** The login branch of the router cannot be reached: a method that the
    ignore list has not matched is not [oauth2Login]. *)
Ltac dead_login :=
  exfalso;
  match goal with
  | Hign : bool_decide (_ ∈ METHODS_TO_IGNORE ?liqi) = false,
    Hlogin : _ && String.eqb _ (oauth2Login ?liqi) = true |- _ =>
      apply andb_true_iff in Hlogin as [_ Hlogin];
      apply String.eqb_eq in Hlogin;
      apply bool_decide_eq_false in Hign; apply Hign;
      rewrite Hlogin; apply oauth2Login_ignored
  end.

Ltac unfold_handlers :=
  unfold _process_msg, amulet_dispatch, _process_end_game,
    _amulet_on_fetch_data, _amulet_on_upgrade_events, _amulet_on_operate_events,
    upgrade_event, operate_event, apply_desktop_remain, apply_used,
    _amulet_update_from_events, update_from_event, fetch_info,
    _amulet_set_pool_from_array.

Section SessionFacts.

Variable py : Builtins.
Variable liqi : LiqiMethod.

Lemma process_msg_idle (msg : WSMessage) :
  preserves idle_session (_process_msg py liqi msg).
Proof.
  unfold_handlers.
  repeat preserve_step;
    try (apply preserves_assign; intros ? (? & ? & ? & ?); unfold idle_session;
         cbn; repeat split; assumption).
  all: try match goal with
    | H : idle_session ?s0, Hb : bool_decide (Some _ = _ ?s0) = true |- _ =>
        exfalso; destruct H as (Hl & Hg & _);
        apply bool_decide_eq_true in Hb; congruence
    end.
  all: dead_login.
Qed.

Lemma reachable_idle (s : BotManager) :
  reachable py liqi s -> idle_session s.
Proof.
  intros Hr. induction Hr as [|s msg _ IH|s e _ IH].
  - repeat split.
  - unfold loop_msg. pose proof (process_msg_idle msg s IH) as H.
    destruct (_process_msg py liqi msg s) as [[[]|] s']; [exact H|].
    destruct H as (? & ? & ? & ?). repeat split; assumption.
  - destruct IH as (? & ? & ? & ?). repeat split; assumption.
Qed.

(** X1: in every reachable state no lobby flow and no game flow is
    recorded, [is_in_game] is false, and [_process_msg] has made none of
    its collaborator calls, [on_lobby_login], [on_exit_lobby],
    [on_end_game] and [overlay_clear_guidance]: the login response that
    would record the lobby flow is ignored, and nothing assigns the game
    flow or the game state. The calls of the other steps of the loop, as
    those of [_loop_post_msg], are not in the trace [calls]. *)
Theorem session_stays_idle (s : BotManager) :
  reachable py liqi s ->
  lobby_flow_id s = None /\ game_flow_id s = None /\ is_in_game s = false
  /\ calls s = [].
Proof.
  intros Hr.
  destruct (reachable_idle s Hr) as (Hl & Hg & Hs & Hc).
  unfold is_in_game. rewrite Hs. auto.
Qed.

(** X2: in every reachable state [get_game_client_type] answers
    [PLAYWRIGHT] when the browser runs and [None] otherwise; it never
    answers [PROXY], since neither flow id is ever set. *)
Theorem client_type_never_proxy (s : BotManager) (browser_running : bool) :
  reachable py liqi s ->
  get_game_client_type browser_running s
  = (if browser_running then Some PLAYWRIGHT else None)
  /\ get_game_client_type browser_running s <> Some PROXY.
Proof.
  intros Hr. destruct (reachable_idle s Hr) as (Hl & Hg & _).
  unfold get_game_client_type. rewrite Hl, Hg.
  destruct browser_running; split; cbn; congruence.
Qed.

(** X3: a frame that passes through leaves the manager as it is and does
    not raise: a START frame, an END frame of a flow that is neither the
    game flow nor the lobby flow, and a MESSAGE frame that does not parse,
    is no response, carries an ignored method, or a method without
    [amulet] in its name. *)
Theorem frames_without_effect (msg : WSMessage) (s : BotManager) :
  passes_through liqi msg s -> _process_msg py liqi msg s = (Returned tt, s).
Proof.
  unfold passes_through, _process_msg. destruct (type msg).
  - reflexivity.
  - intros [Hg Hl]. run_stmts.
    rewrite bool_decide_eq_false_2 by congruence. cbn.
    rewrite bool_decide_eq_false_2 by congruence. reflexivity.
  - destruct (content msg) as [m|]; [|reflexivity]. intros Hm.
    destruct (bool_decide (liqi_method m ∈ METHODS_TO_IGNORE liqi)) eqn:Hign;
      [reflexivity|].
    destruct (bool_decide (liqi_type m = Res)
              && String.eqb (liqi_method m) (oauth2Login liqi)) eqn:Hlogin;
      [dead_login|].
    apply bool_decide_eq_false in Hign.
    destruct Hm as [Hres|[Hin|Hname]]; [| tauto |].
    + rewrite (bool_decide_eq_false_2 _ Hres).
      destruct (Py.occurs _ _); [reflexivity|].
      run_stmts. destruct (bool_decide (Some _ = _)); reflexivity.
    + rewrite Hname. run_stmts. destruct (bool_decide (Some _ = _)); reflexivity.
Qed.


End SessionFacts.

(** ** Replaying a frame *)

Lemma apply_no_patch (s : BotManager) : apply_patch no_patch s = s.
Proof. destruct s as [? ? ? ? ? [] ? ? ? ? ? ? ? ?]. reflexivity. Qed.

Lemma apply_patch_seq (p q : Patch) (s : BotManager) :
  apply_patch (patch_seq p q) s = apply_patch q (apply_patch p s).
Proof.
  unfold apply_patch, patch_seq. cbn. f_equal; [| f_equal | ..];
    match goal with |- context [later _ ?b] => destruct b end; reflexivity.
Qed.

Lemma apply_patch_twice (p : Patch) (s : BotManager) :
  apply_patch p (apply_patch p s) = apply_patch p s.
Proof.
  unfold apply_patch. cbn. f_equal; [| f_equal | ..];
    match goal with |- context [default _ ?b] => destruct b end; reflexivity.
Qed.

Lemma patchy_ret {A : Type} (a : A) : patchy (mret a : M A).
Proof. exists (Returned a), no_patch. intros s. rewrite apply_no_patch. reflexivity. Qed.

Lemma patchy_eval {A : Type} (e : option A) : patchy (eval e).
Proof.
  destruct e as [a|]; eexists _, no_patch; intros s; rewrite apply_no_patch;
    reflexivity.
Qed.

Lemma patchy_assign (g : BotManager -> BotManager) (p : Patch) :
  (forall s, g s = apply_patch p s) -> patchy (assign g).
Proof. intros Hg. exists (Returned tt), p. intros s. unfold assign. rewrite Hg. reflexivity. Qed.

Lemma patchy_bind {A B : Type} (m : M A) (f : A -> M B) :
  patchy m -> (forall a, patchy (f a)) -> patchy (m ≫= f).
Proof.
  intros (o & p & Hm) Hf. destruct o as [a|].
  - destruct (Hf a) as (o' & q & Hfa). exists o', (patch_seq p q).
    intros s. rewrite run_bind, Hm, Hfa, apply_patch_seq. reflexivity.
  - exists Raised, p. intros s. rewrite run_bind, Hm. reflexivity.
Qed.

Lemma patchy_ext {A : Type} (m m' : M A) :
  (forall s, m s = m' s) -> patchy m' -> patchy m.
Proof. intros Heq (o & p & Hm). exists o, p. intros s. rewrite Heq. apply Hm. Qed.

Lemma patchy_try_pass (body : M unit) : patchy body -> patchy (try_pass body).
Proof.
  intros (o & p & Hm). exists (Returned tt), p. intros s. unfold try_pass.
  rewrite Hm. reflexivity.
Qed.

Lemma patchy_for_each {A : Type} (l : list A) (body : A -> M unit) :
  (forall x, patchy (body x)) -> patchy (for_each l body).
Proof.
  intros Hb. induction l as [|x l IH]; cbn [for_each].
  - apply patchy_ret.
  - apply patchy_bind; [apply Hb | intros _; exact IH].
Qed.

(** The patch of one assignment: try the fields in turn, then the four
    of the info dictionary together. *)
Ltac patchy_with p :=
  eapply (patchy_assign _ p);
  intros [? ? ? ? ? [] ? ? ? ? ? ? ? ?]; reflexivity.

Ltac patchy_assign_field :=
  first
    [ patchy_with uconstr:(Build_Patch (Some _) None None None None None
                           None None None None None)
    | patchy_with uconstr:(Build_Patch None (Some _) None None None None
                           None None None None None)
    | patchy_with uconstr:(Build_Patch None None (Some _) None None None
                           None None None None None)
    | patchy_with uconstr:(Build_Patch None None None (Some _) None None
                           None None None None None)
    | patchy_with uconstr:(Build_Patch None None None None (Some _) None
                           None None None None None)
    | patchy_with uconstr:(Build_Patch None None None None None (Some _)
                           None None None None None)
    | patchy_with uconstr:(Build_Patch None None None None None None
                           (Some _) None None None None)
    | patchy_with uconstr:(Build_Patch None None None None None None
                           None (Some _) None None None)
    | patchy_with uconstr:(Build_Patch None None None None None None
                           None None (Some _) None None)
    | patchy_with uconstr:(Build_Patch None None None None None None
                           None None None (Some _) None)
    | patchy_with uconstr:(Build_Patch None None None None None None
                           None None None None (Some _))
    | patchy_with uconstr:(Build_Patch None (Some _) (Some _) (Some _) (Some _) None
                           None None None None None) ].

Ltac patchy_step :=
  lazymatch goal with
  | |- patchy (mret _) => apply patchy_ret
  | |- patchy pass => apply patchy_ret
  | |- patchy (eval _) => apply patchy_eval
  | |- patchy (try_pass _) => apply patchy_try_pass
  | |- patchy (for_each _ _) => apply patchy_for_each; intros ?
  | |- patchy (_ ≫= _) => apply patchy_bind; [| intros ?]
  | |- patchy (if ?b then _ else _) => destruct b eqn:?
  | |- patchy (match ?x with _ => _ end) => destruct x eqn:?
  | |- patchy (assign_info _) => unfold assign_info
  | |- patchy (assign _) => patchy_assign_field
  end.

Section ReplayFacts.

Variable py : Builtins.
Variable liqi : LiqiMethod.

Lemma set_pool_patchy (pool : pyval) :
  patchy (_amulet_set_pool_from_array py pool).
Proof.
  unfold _amulet_set_pool_from_array.
  destruct (Py.copy pool) as [p|] eqn:Hcopy;
    [| exists Raised, no_patch; intros s; rewrite apply_no_patch; reflexivity].
  apply (patchy_ext _
    (assign (set_amulet_pool p) ;;
     draw_slice ← eval (Py.slice_elems 23 59 p);
     draw_ids ← eval (ids_of py draw_slice);
     assign (set_amulet_draw_ids draw_ids) ;;
     rep_slice ← eval (Py.slice_elems 59 108 p);
     rep_ids ← eval (ids_of py rep_slice);
     assign (set_amulet_replace_ids rep_ids) ;;
     assign (set_amulet_used_ids ∅) ;;
     assign (set_amulet_desktop_remain 36) ;;
     assign (set_amulet_replace_cursor 0))).
  - intros s. run_stmts.
    destruct (Py.slice_elems 23 59 p) as [ds|]; [|reflexivity]. cbn.
    destruct (ids_of py ds) as [di|]; [|reflexivity]. cbn.
    destruct (Py.slice_elems 59 108 p) as [rs|]; [|reflexivity]. cbn.
    destruct (ids_of py rs) as [ri|]; reflexivity.
  - repeat patchy_step.
Qed.

Lemma apply_patch_exception (p : Patch) (e : option unit) (s : BotManager) :
  apply_patch p (set_game_exception e s) = set_game_exception e (apply_patch p s).
Proof. reflexivity. Qed.

Lemma dispatch_patchy (m : LiqiMsg) : patchy (amulet_dispatch py liqi m).
Proof.
  unfold amulet_dispatch, _amulet_on_fetch_data, _amulet_on_upgrade_events,
    _amulet_on_operate_events, upgrade_event, operate_event,
    apply_desktop_remain, apply_used, _amulet_update_from_events,
    update_from_event, fetch_info.
  repeat first [apply set_pool_patchy | patchy_step].
Qed.

Lemma process_message_patchy (msg : WSMessage) :
  type msg = MESSAGE -> patchy (_process_msg py liqi msg).
Proof.
  intros Hty. unfold _process_msg. rewrite Hty.
  destruct (content msg) as [m|]; [|apply patchy_ret].
  destruct (bool_decide (liqi_method m ∈ METHODS_TO_IGNORE liqi)) eqn:Hign;
    [apply patchy_ret|].
  destruct (bool_decide (liqi_type m = Res)
            && String.eqb (liqi_method m) (oauth2Login liqi)) eqn:Hlogin;
    [dead_login|].
  destruct (Py.occurs "amulet" (Py.lower (liqi_method m))).
  - destruct (bool_decide (liqi_type m = Res));
      [apply dispatch_patchy | apply patchy_ret].
  - apply (patchy_ext _ (mret tt)); [|apply patchy_ret].
    intros s. run_stmts. destruct (bool_decide (Some _ = _)); reflexivity.
Qed.

(** X5: one pass of the loop on a MESSAGE frame is idempotent: processing
    the same frame a second time gives the state the first pass gave. The
    amulet handlers write values that depend on the frame only. *)
Theorem message_replay_idempotent (msg : WSMessage) (s : BotManager) :
  type msg = MESSAGE ->
  loop_msg py liqi msg (loop_msg py liqi msg s) = loop_msg py liqi msg s.
Proof.
  intros Hty. destruct (process_message_patchy msg Hty) as (o & p & Hrun).
  unfold loop_msg. rewrite Hrun. destruct o as [[]|].
  - rewrite Hrun, apply_patch_twice. reflexivity.
  - rewrite Hrun. cbv beta iota.
    rewrite apply_patch_exception, apply_patch_twice. reflexivity.
Qed.

(** X6: whether [_process_msg] returns or raises on a MESSAGE frame
    depends on the frame alone, not on the state of the manager. *)
Theorem message_outcome_state_independent (msg : WSMessage) (s1 s2 : BotManager) :
  type msg = MESSAGE ->
  (_process_msg py liqi msg s1).1 = (_process_msg py liqi msg s2).1.
Proof.
  intros Hty. destruct (process_message_patchy msg Hty) as (o & p & Hrun).
  rewrite !Hrun. reflexivity.
Qed.

End ReplayFacts.

(** ** More on the fetch handler *)

Lemma get_assoc (k : string) (d : list (string * pyval)) (v : pyval) :
  Py.assoc k d = Some v -> Py.get (PDict d) k = Some v.
Proof. intros H. cbn. rewrite H. reflexivity. Qed.

Lemma get_assoc_None (k : string) (d : list (string * pyval)) :
  Py.assoc k d = None -> Py.get (PDict d) k = Some PNone.
Proof. intros H. cbn. rewrite H. reflexivity. Qed.

(** Evaluate the expression at the head of the block, by the lookups in
    the hypotheses. *)
Ltac solve_eval :=
  first [ eassumption
        | apply get_assoc; eassumption
        | apply get_assoc_None; eassumption
        | reflexivity ].

Ltac run_eval := erewrite run_eval_bind by solve_eval.

Section FetchFacts.

Variable py : Builtins.

Lemma fetch_info_keeps (X : pyval * list Z * list Z) (Y : gset Z * Z * Z)
    (b : bool) (liqi_data : pyval) :
  preserves (fun s => pool_and_segments s = X /\ counters s = Y
                      /\ _amulet_active s = b)
    (fetch_info py liqi_data).
Proof.
  unfold fetch_info.
  repeat preserve_step;
    apply preserves_assign; intros ? (? & ? & ?); repeat split; assumption.
Qed.

(** X7: a fetch payload whose round has no pool and no resume field keeps
    the pool and both segments of the state, yet sets the used ids to the
    empty set and the remaining count and the cursor to 0. *)
Theorem fetch_without_pool (s : BotManager)
    (ld d g r : list (string * pyval)) :
  Py.assoc "data" ld = Some (PDict d) ->
  Py.assoc "game" d = Some (PDict g) ->
  Py.assoc "round" g = Some (PDict r) ->
  Py.assoc "pool" r = None ->
  Py.assoc "usedDesktop" r = None ->
  Py.assoc "desktopRemain" r = None ->
  Py.assoc "used" r = None ->
  exists s',
    _amulet_on_fetch_data py (PDict ld) s = (Returned tt, s')
    /\ pool_and_segments s' = pool_and_segments s
    /\ counters s' = (∅, 0, 0).
Proof.
  intros Hd Hg Hr Hp Hu Hdr Hur.
  pose proof (fetch_info_keeps (pool_and_segments s) (counters s)
                (_amulet_active s) (PDict ld) s) as Hkeep.
  eexists. split.
  { unfold _amulet_on_fetch_data.
    run_eval. rewrite (or_dict _ _ _ _ Hg). run_eval.
    replace (Py.truthy (PDict g)) with true
      by (destruct g; [discriminate|reflexivity]).
    cbn [negb]. run_eval. cbn zeta.
    assert (Hor : Py.or (PDict r) (PDict []) = PDict r)
      by (destruct r; reflexivity).
    rewrite !Hor. run_eval. rewrite !or_None. cbn [Py.truthy].
    rewrite run_bind. unfold pass at 1. cbn [mret M_ret].
    rewrite run_bind. unfold try_pass at 1.
    run_eval. do 2 run_eval. rewrite run_assign_bind.
    run_eval. run_eval. rewrite run_assign_bind.
    run_eval. rewrite or_None. reflexivity. }
  destruct Hkeep as (Hps & _); [auto|].
  split; [|reflexivity]. exact Hps.
Qed.

Lemma set_members_ints (U : list Z) :
  set_members (PList (map PInt U)) = Some (map PInt U).
Proof.
  unfold set_members. cbn.
  replace (forallb Py.hashable (map PInt U)) with true; [reflexivity|].
  induction U as [|z U IH]; [reflexivity | exact IH].
Qed.

Lemma or_int (z : Z) : Py.or (PInt z) (PInt 0) = PInt z.
Proof. unfold Py.or. cbn. destruct (Z.eqb_spec z 0) as [->|]; reflexivity. Qed.

(** X8: a fetch payload with a pool that is not empty, in which every
    record that has an ["id"] has one that [int] accepts, and with the
    resume fields [usedDesktop], [desktopRemain] and [used] ends with the
    used ids of [usedDesktop], the remaining count of [desktopRemain] and
    the cursor at the length of [used], in place of what the pool routine
    has just set; the pool and the segments are those of the payload's
    pool. *)
Theorem fetch_adopts_resume_fields (s : BotManager)
    (ld d g r : list (string * pyval)) (l R : list pyval) (U : list Z) (n : Z) :
  Py.assoc "data" ld = Some (PDict d) ->
  Py.assoc "game" d = Some (PDict g) ->
  Py.assoc "round" g = Some (PDict r) ->
  Py.assoc "pool" r = Some (PList l) ->
  l <> [] ->
  ids_readable py l ->
  Py.assoc "usedDesktop" r = Some (PList (map PInt U)) ->
  Py.assoc "desktopRemain" r = Some (PInt n) ->
  Py.assoc "used" r = Some (PList R) ->
  exists s',
    _amulet_on_fetch_data py (PDict ld) s = (Returned tt, s')
    /\ counters s' = (list_to_set U, n, Z.of_nat (length R))
    /\ _amulet_pool s' = PList l
    /\ ids_of py (Py.slice 23 59 l) = Some (_amulet_draw_ids s')
    /\ ids_of py (Py.slice 59 108 l) = Some (_amulet_replace_ids s').
Proof.
  intros Hd Hg Hr Hp Hl Hok Hu Hdr Hur.
  destruct (ids_of_readable _ _ (ids_readable_slice py 23 59 l Hok)) as [draw Hdraw].
  destruct (ids_of_readable _ _ (ids_readable_slice py 59 108 l Hok)) as [rep Hrep].
  set (s1 := set_amulet_replace_cursor 0
     (set_amulet_desktop_remain 36
        (set_amulet_used_ids ∅
           (set_amulet_replace_ids rep
              (set_amulet_draw_ids draw (set_amulet_pool (PList l) s)))))).
  pose proof (fetch_info_keeps (pool_and_segments s1) (counters s1)
                (_amulet_active s1) (PDict ld) s1) as Hkeep.
  eexists. split.
  { unfold _amulet_on_fetch_data.
    run_eval. rewrite (or_dict _ _ _ _ Hg). run_eval.
    replace (Py.truthy (PDict g)) with true
      by (destruct g; [discriminate|reflexivity]).
    cbn [negb]. run_eval. cbn zeta.
    rewrite !(or_dict _ _ _ _ Hp). run_eval. rewrite !or_list.
    replace (Py.truthy (PList l)) with true
      by (destruct l; [congruence|reflexivity]).
    rewrite run_bind, (set_pool_run py _ l draw rep Hdraw Hrep). fold s1.
    rewrite run_bind. unfold try_pass at 1.
    run_eval. rewrite or_list.
    erewrite run_eval_bind by apply set_members_ints.
    erewrite run_eval_bind by apply mapM_int_PInt.
    rewrite run_assign_bind.
    run_eval. rewrite or_int. run_eval. rewrite run_assign_bind.
    run_eval. rewrite or_list. reflexivity. }
  destruct Hkeep as (Hps & _); [auto|].
  split; [reflexivity|]. cbn in Hps |- *. injection Hps as -> -> ->. auto.
Qed.

End FetchFacts.

(** ** More on the upgrade and operate handlers *)

Section EventFacts.

Variable py : Builtins.

Lemma update_from_events_keeps (X : pyval * list Z * list Z) (Y : gset Z * Z * Z)
    (events : list pyval) :
  preserves (fun s => pool_and_segments s = X /\ counters s = Y)
    (_amulet_update_from_events events).
Proof.
  unfold _amulet_update_from_events, update_from_event.
  repeat preserve_step;
    apply preserves_assign; intros ? (? & ?); repeat split; assumption.
Qed.

Lemma dirty_field_get (rd : list (string * pyval)) (k : string) (v : pyval) :
  dirty_field rd k v ->
  exists f, Py.get (PDict rd) k = Some (PDict f) /\ is_dirty (PDict f) = true
            /\ Py.get (PDict f) "value" = Some v
            /\ Py.subscript (PDict f) "value" = Some v
            /\ Py.or (PDict f) (PDict []) = PDict f.
Proof.
  intros (f & flag & Hk & Hflag & Htrue & Hv). exists f.
  split; [apply get_assoc, Hk|]. split.
  { unfold is_dirty. cbn. rewrite Hflag. exact Htrue. }
  split; [apply get_assoc, Hv|]. split; [exact Hv|].
  exact (or_dict _ _ _ _ Hv).
Qed.

Lemma event_round_get (ev : pyval) (rd : list (string * pyval)) :
  event_round ev rd ->
  exists vc, Py.get ev "valueChanges" = Some (PDict vc)
             /\ Py.or (PDict vc) (PDict []) = PDict vc
             /\ Py.get (PDict vc) "round" = Some (PDict rd).
Proof.
  intros (evd & vc & -> & Hvc & Hrd). exists vc.
  split; [apply get_assoc, Hvc|]. split; [exact (or_dict _ _ _ _ Hrd)|].
  apply get_assoc, Hrd.
Qed.

Lemma run_seq {A B : Type} (m : M A) (f : A -> M B) (a : A) (s s1 : BotManager) :
  m s = (Returned a, s1) -> (m ≫= f) s = f a s1.
Proof. intros H. rewrite run_bind, H. reflexivity. Qed.

Lemma run_raise {A B : Type} (m : M A) (f : A -> M B) (s s1 : BotManager) :
  m s = (Raised, s1) -> (m ≫= f) s = (Raised, s1).
Proof. intros H. rewrite run_bind, H. reflexivity. Qed.

Lemma apply_desktop_remain_dirty (rd : list (string * pyval)) (n : Z) (s : BotManager) :
  dirty_field rd "desktopRemain" (PInt n) ->
  apply_desktop_remain py (PDict rd) s
  = (Returned tt, set_amulet_desktop_remain n s).
Proof.
  intros H. destruct (dirty_field_get _ _ _ H) as (f & Hg & Hd & Hv & _ & _).
  unfold apply_desktop_remain. run_eval. rewrite Hd. run_eval.
  rewrite or_int. run_eval. reflexivity.
Qed.

Lemma apply_used_dirty (rd : list (string * pyval)) (R : list pyval) (s : BotManager) :
  dirty_field rd "used" (PList R) ->
  apply_used (PDict rd) s
  = (Returned tt, set_amulet_replace_cursor (Z.of_nat (length R)) s).
Proof.
  intros H. destruct (dirty_field_get _ _ _ H) as (f & Hg & Hd & Hv & _ & _).
  unfold apply_used. run_eval. rewrite Hd. run_eval. rewrite or_list.
  unfold try_pass. run_eval. reflexivity.
Qed.

(** X9: an upgrade event with a dirty pool, in which every record that
    has an ["id"] has one that [int] accepts, a dirty [desktopRemain] of
    value [n] and a dirty [used] of value [R] sets the pool first and the
    two fields after it: the used ids end empty, the remaining count is
    [n], not 36, and the cursor is the length of [R], not 0. *)
Theorem upgrade_applies_fields_after_pool (s : BotManager) (ev : pyval)
    (rd : list (string * pyval)) (l R : list pyval) (n : Z) :
  event_round ev rd ->
  dirty_field rd "pool" (PList l) ->
  ids_readable py l ->
  dirty_field rd "desktopRemain" (PInt n) ->
  dirty_field rd "used" (PList R) ->
  exists s',
    _amulet_on_upgrade_events py [ev] s = (Returned tt, s')
    /\ counters s' = (∅, n, Z.of_nat (length R))
    /\ _amulet_pool s' = PList l
    /\ ids_of py (Py.slice 23 59 l) = Some (_amulet_draw_ids s')
    /\ ids_of py (Py.slice 59 108 l) = Some (_amulet_replace_ids s').
Proof.
  intros Hev Hpool Hok Hrem Hused.
  destruct (event_round_get _ _ Hev) as (vc & Hvc & Hvcor & Hround).
  assert (Hrdor : Py.or (PDict rd) (PDict []) = PDict rd).
  { destruct Hpool as (f & flag & Hk & _). exact (or_dict _ _ _ _ Hk). }
  destruct (dirty_field_get _ _ _ Hpool) as (fp & Hgp & Hdp & Hvp & Hsp & Hpor).
  destruct (ids_of_readable _ _ (ids_readable_slice py 23 59 l Hok)) as [draw Hdraw].
  destruct (ids_of_readable _ _ (ids_readable_slice py 59 108 l Hok)) as [rep Hrep].
  set (s1 := set_amulet_replace_cursor (Z.of_nat (length R))
    (set_amulet_desktop_remain n
     (set_amulet_replace_cursor 0
     (set_amulet_desktop_remain 36
        (set_amulet_used_ids ∅
           (set_amulet_replace_ids rep
              (set_amulet_draw_ids draw (set_amulet_pool (PList l) s)))))))).
  assert (Hstep : upgrade_event py ev s = (Returned tt, s1)).
  { unfold upgrade_event.
    run_eval. cbn zeta. rewrite !Hvcor. run_eval. rewrite !Hrdor.
    run_eval. rewrite !Hpor, Hdp, Hvp. cbn [from_option id Py.is_list andb].
    erewrite run_seq;
      [| run_eval; apply (set_pool_run py _ l draw rep Hdraw Hrep)].
    erewrite run_seq by (apply apply_desktop_remain_dirty, Hrem).
    rewrite (apply_used_dirty _ R _ Hused). reflexivity. }
  pose proof (update_from_events_keeps (pool_and_segments s1) (counters s1)
                [ev] s1) as Hkeep.
  eexists. split.
  { unfold _amulet_on_upgrade_events. cbn [for_each].
    erewrite run_seq; [| erewrite run_seq by exact Hstep; reflexivity].
    reflexivity. }
  destruct Hkeep as (Hps & Hc); [auto|].
  unfold try_pass. cbn [snd]. split; [exact Hc|].
  unfold pool_and_segments in Hps. injection Hps as Hp Hd Hr.
  rewrite Hp, Hd, Hr. auto.
Qed.

Lemma is_dirty_or (f : pyval) : is_dirty (Py.or f (PDict [])) = is_dirty f.
Proof.
  unfold Py.or. destruct (Py.truthy f) eqn:H; [reflexivity|].
  destruct f as [| | | | |[|]]; try reflexivity. discriminate H.
Qed.

Lemma quiet_upgrade_event (X : pyval * list Z * list Z) (Y : gset Z * Z * Z)
    (ev : pyval) :
  quiet ev ->
  preserves (fun s => pool_and_segments s = X /\ counters s = Y)
    (upgrade_event py ev).
Proof.
  intros Hq. unfold upgrade_event, apply_desktop_remain, apply_used.
  apply preserves_eval_bind; intros vc Hvc. cbn zeta.
  apply preserves_eval_bind; intros r Hr.
  specialize (Hq vc r Hvc Hr).
  apply preserves_eval_bind; intros p Hp.
  rewrite is_dirty_or, (Hq "pool" p) by (set_solver || exact Hp).
  cbn [andb]. apply preserves_bind; [apply preserves_ret | intros _].
  apply preserves_bind; [|intros _].
  - apply preserves_eval_bind; intros f Hf.
    rewrite (Hq "desktopRemain" f) by (set_solver || exact Hf).
    apply preserves_ret.
  - apply preserves_eval_bind; intros f Hf.
    rewrite (Hq "used" f) by (set_solver || exact Hf).
    apply preserves_ret.
Qed.

Lemma quiet_operate_event (X : pyval * list Z * list Z) (Y : gset Z * Z * Z)
    (ev : pyval) :
  quiet ev ->
  preserves (fun s => pool_and_segments s = X /\ counters s = Y)
    (operate_event py ev).
Proof.
  intros Hq. unfold operate_event, apply_desktop_remain, apply_used.
  apply preserves_eval_bind; intros vc Hvc. cbn zeta.
  apply preserves_eval_bind; intros r Hr.
  specialize (Hq vc r Hvc Hr).
  apply preserves_eval_bind; intros u Hu.
  rewrite (Hq "usedDesktop" u) by (set_solver || exact Hu).
  apply preserves_bind; [apply preserves_ret | intros _].
  apply preserves_bind; [|intros _].
  - apply preserves_eval_bind; intros f Hf.
    rewrite (Hq "desktopRemain" f) by (set_solver || exact Hf).
    apply preserves_ret.
  - apply preserves_eval_bind; intros f Hf.
    rewrite (Hq "used" f) by (set_solver || exact Hf).
    apply preserves_ret.
Qed.

Lemma preserves_for_each_Forall {A : Type} (P : BotManager -> Prop)
    (Q : A -> Prop) (l : list A) (body : A -> M unit) :
  (forall x, Q x -> preserves P (body x)) -> Forall Q l ->
  preserves P (for_each l body).
Proof.
  intros Hb Hl. induction Hl as [|x l Hx _ IH]; cbn [for_each].
  - apply preserves_ret.
  - apply preserves_bind; [apply Hb, Hx | intros _; exact IH].
Qed.

(** X10: events in which none of [pool], [usedDesktop], [desktopRemain]
    and [used] is dirty leave the pool, both segments, the used ids, the
    remaining count and the cursor unchanged, in the upgrade handler and in
    the operate handler alike. *)
Theorem quiet_events_keep_bookkeeping (events : list pyval) (s : BotManager) :
  Forall quiet events ->
  (pool_and_segments (_amulet_on_upgrade_events py events s).2
     = pool_and_segments s
   /\ counters (_amulet_on_upgrade_events py events s).2 = counters s)
  /\ (pool_and_segments (_amulet_on_operate_events py events s).2
        = pool_and_segments s
      /\ counters (_amulet_on_operate_events py events s).2 = counters s).
Proof.
  intros Hq. split.
  - apply (preserves_bind
             (fun s0 => pool_and_segments s0 = pool_and_segments s
                        /\ counters s0 = counters s)); [| |auto].
    + apply (preserves_for_each_Forall _ quiet); [|exact Hq].
      intros ev Hev. apply quiet_upgrade_event, Hev.
    + intros _. apply preserves_try_pass, update_from_events_keeps.
  - apply (preserves_bind
             (fun s0 => pool_and_segments s0 = pool_and_segments s
                        /\ counters s0 = counters s)); [| |auto].
    + apply (preserves_for_each_Forall _ quiet); [|exact Hq].
      intros ev Hev. apply quiet_operate_event, Hev.
    + intros _. apply preserves_try_pass, update_from_events_keeps.
Qed.

(** X11: an operate event with a dirty [desktopRemain] whose value [int]
    does not accept makes the handler raise at that event: with no dirty
    [usedDesktop] before it the state is unchanged, the events after it
    are not looked at, and the info dictionary is not updated. *)
Theorem unreadable_remain_aborts_batch (s : BotManager) (ev : pyval)
    (rest : list pyval) (rd f : list (string * pyval)) (flag v u : pyval) :
  event_round ev rd ->
  Py.get (PDict rd) "usedDesktop" = Some u ->
  is_dirty u = false ->
  Py.assoc "desktopRemain" rd = Some (PDict f) ->
  Py.assoc "dirty" f = Some flag ->
  Py.truthy flag = true ->
  Py.get (PDict f) "value" = Some v ->
  int py (Py.or v (PInt 0)) = None ->
  _amulet_on_operate_events py (ev :: rest) s = (Raised, s).
Proof.
  intros Hev Hu Hclean Hdr Hflag Htrue Hv Hint.
  destruct (event_round_get _ _ Hev) as (vc & Hvc & Hvcor & Hround).
  assert (Hrdor : Py.or (PDict rd) (PDict []) = PDict rd)
    by exact (or_dict _ _ _ _ Hdr).
  assert (Hdirty : is_dirty (PDict f) = true).
  { unfold is_dirty. cbn. rewrite Hflag. exact Htrue. }
  unfold _amulet_on_operate_events. cbn [for_each].
  apply run_raise. apply run_raise.
  unfold operate_event.
  run_eval. cbn zeta. rewrite !Hvcor. run_eval. rewrite !Hrdor.
  run_eval. rewrite Hclean.
  erewrite run_seq by reflexivity.
  apply run_raise. unfold apply_desktop_remain.
  run_eval. rewrite Hdirty. run_eval. rewrite Hint. reflexivity.
Qed.

End EventFacts.

(** ** More on the pool routine *)

Section PoolEdgeFacts.

Variable py : Builtins.

Lemma ids_of_unreadable (xs : list pyval) (x : pyval) :
  x ∈ xs -> has_id x = true -> Py.get x "id" ≫= int py = None ->
  ids_of py xs = None.
Proof.
  intros Hin Hid Hbad. induction xs as [|y xs IH]; [inversion Hin|].
  cbn [ids_of]. apply elem_of_cons in Hin as [<-|Hin].
  - rewrite Hid. destruct (Py.get x "id") as [v|]; [|reflexivity].
    cbn in Hbad |- *. rewrite Hbad. reflexivity.
  - rewrite (IH Hin). destruct (has_id y); [|reflexivity].
    destruct (Py.get y "id") as [v|]; [|reflexivity]. cbn.
    destruct (int py v); reflexivity.
Qed.

Lemma elem_of_slice {A : Type} (lo hi i : nat) (l : list A) (x : A) :
  l !! i = Some x -> (lo <= i < hi)%nat -> x ∈ Py.slice lo hi l.
Proof.
  intros Hi Hrange. unfold Py.slice. apply list_elem_of_lookup.
  exists (i - lo)%nat. rewrite lookup_take_lt by lia.
  rewrite lookup_drop. replace (lo + (i - lo))%nat with i by lia. exact Hi.
Qed.

(** X12: when a record of the draw range of the pool, index 23 to 58,
    has an ["id"] that [int] does not accept, the pool routine raises
    after it has stored the pool and before it writes anything else: the
    segments and the three counters are still those of the pool before. *)
Theorem unreadable_id_leaves_pool_half_set (s : BotManager) (l : list pyval)
    (i : nat) (x : pyval) :
  l !! i = Some x -> (23 <= i < 59)%nat ->
  has_id x = true -> Py.get x "id" ≫= int py = None ->
  _amulet_set_pool_from_array py (PList l) s
  = (Raised, set_amulet_pool (PList l) s).
Proof.
  intros Hi Hrange Hid Hbad.
  assert (Hnone : ids_of py (Py.slice 23 59 l) = None).
  { apply (ids_of_unreadable _ x); [|exact Hid|exact Hbad].
    apply (elem_of_slice _ _ i); assumption. }
  unfold _amulet_set_pool_from_array. run_stmts.
  rewrite Hnone. reflexivity.
Qed.

(** X13: for a pool of any length the pool routine returns, with the
    ids of the pool indices 23 to 58 as draw segment and those from 59 to
    107 as replace queue, as far as the pool has them: the segments have
    [min 36 (n - 23)] and [min 49 (n - 59)] ids for a pool of [n]
    records. *)
Theorem segments_of_any_length (s : BotManager) (l : list pyval) (ids : list Z) :
  Forall2 (tile_with_id py) l ids ->
  exists s',
    _amulet_set_pool_from_array py (PList l) s = (Returned tt, s')
    /\ _amulet_draw_ids s' = Py.slice 23 59 ids
    /\ _amulet_replace_ids s' = Py.slice 59 108 ids
    /\ length (_amulet_draw_ids s') = (36 `min` (length l - 23))%nat
    /\ length (_amulet_replace_ids s') = (49 `min` (length l - 59))%nat.
Proof.
  intros Hl. pose proof (Forall2_length _ _ _ Hl) as Hlen.
  eexists. split.
  { apply set_pool_run; apply ids_of_tiles, tiles_slice, Hl. }
  cbn -[Nat.min Nat.sub]. split; [reflexivity|]. split; [reflexivity|].
  unfold Py.slice. rewrite !length_take, !length_drop. lia.
Qed.

End PoolEdgeFacts.

(** ** More on the display queries *)

Section QueryFacts.

Variable py : Builtins.

Lemma nonempty_true {A : Type} (l : list A) : Py.nonempty l = true <-> l <> [].
Proof. destruct l; cbn; split; congruence. Qed.

Lemma replace_header_not_empty (c n : Z) (rest : string) :
  replace_header c n +:+ rest <> "".
Proof. unfold replace_header. cbn. discriminate. Qed.

(** X14: [get_amulet_replace_text] gives the empty string exactly when
    the amulet is inactive, or the pool or the replace queue is empty, or
    the stage of the info does not read as 2. *)
Theorem replace_text_empty_iff (s : BotManager) :
  get_amulet_replace_text py s = Some "" <-> ~ replace_text_shown py s.
Proof.
  unfold get_amulet_replace_text, replace_text_shown.
  destruct (_amulet_active s); cbn [andb negb];
    [|split; [intros _ (? & _); discriminate | reflexivity]].
  destruct (Py.truthy (_amulet_pool s)); cbn [andb negb];
    [|split; [intros _ (_ & ? & _); discriminate | reflexivity]].
  destruct (Py.nonempty (_amulet_replace_ids s)) eqn:Hq; cbn [negb].
  2: { split; [|reflexivity]. intros _ (_ & _ & Hne & _).
       apply nonempty_true in Hne. congruence. }
  apply nonempty_true in Hq.
  destruct (int py (stage (_amulet_info s))) as [z|] eqn:Hstage; cbn [default from_option id].
  - destruct (Z.eqb_spec z 2) as [->|Hz]; cbn [negb].
    + split; [|intros H; exfalso; apply H; auto].
      destruct (Py.iter (_amulet_pool s)) as [objs|]; [|cbn; discriminate].
      cbn [mbind option_bind]. intros H. exfalso. injection H as H.
      exact (replace_header_not_empty _ _ _ H).
    + split; [|reflexivity]. intros _ (_ & _ & _ & [= H]). congruence.
  - cbn. split; [|reflexivity]. intros _ (_ & _ & _ & H). discriminate.
Qed.

(** X15: a replace text that is not empty is the header with the shown
    cursor and the length of the queue, a line break, and the symbols of
    the queue that [get_amulet_replace_queue] returns, each rendered by
    [_as_emoji], in order and separated by blanks, with the bar inserted
    after the first [c] of them, [c] being the shown cursor. *)
Theorem replace_text_shows_queue (s : BotManager) (t : string) :
  get_amulet_replace_text py s = Some t -> t <> "" ->
  exists q : list string,
    get_amulet_replace_queue py s = Some q
    /\ length q = length (_amulet_replace_ids s)
    /\ let c := Z.to_nat (shown_cursor s) in
       (c <= length q)%nat
       /\ t = replace_header (shown_cursor s) (Z.of_nat (length q))
               +:+ newline
               +:+ Py.join " " (take c (map (_as_emoji py) q) ++ "｜"
                                :: drop c (map (_as_emoji py) q)).
Proof.
  unfold get_amulet_replace_text, get_amulet_replace_queue.
  destruct (negb _); [congruence|].
  destruct (negb _); [congruence|].
  destruct (Py.iter (_amulet_pool s)) as [objs|]; [|discriminate].
  cbn. intros [= <-] _. eexists. split; [reflexivity|].
  unfold tiles_of. rewrite !length_map. split; [reflexivity|].
  pose proof (shown_cursor_range s). split; [lia|]. reflexivity.
Qed.

Lemma tiles_of_slice (m : gmap Z string) (lo hi : nat) (ids : list Z) :
  tiles_of m (Py.slice lo hi ids) = Py.slice lo hi (tiles_of m ids).
Proof.
  unfold tiles_of, Py.slice. change (map ?f ?xs) with (f <$> xs).
  rewrite fmap_take, fmap_drop. reflexivity.
Qed.

(** X16: in an active state whose pool is made of more than 59 records
    with distinct ids and whose replace queue holds the ids of the pool
    indices from 59 on, [get_amulet_replace_queue] returns the tile
    symbols of those pool indices, in pool order. *)
Theorem replace_queue_is_pool_tail (s : BotManager) (l : list pyval)
    (zts : list (Z * string)) :
  _amulet_active s = true ->
  _amulet_pool s = PList l ->
  _amulet_replace_ids s = Py.slice 59 108 zts.*1 ->
  Forall2 (tile_record py) l zts ->
  NoDup zts.*1 ->
  (59 < length l)%nat ->
  get_amulet_replace_queue py s = Some (Py.slice 59 108 zts.*2).
Proof.
  intros Hact Hpool Hids Hrec Hnd Hlen.
  pose proof (Forall2_length _ _ _ Hrec) as Hlen'.
  unfold get_amulet_replace_queue. rewrite Hact, Hpool, Hids.
  replace (Py.truthy (PList l)) with true
    by (destruct l; [cbn in Hlen; lia | reflexivity]).
  replace (Py.nonempty (Py.slice 59 108 zts.*1)) with true.
  - cbn. rewrite tiles_of_slice, (tiles_of_records py l zts Hrec Hnd).
    reflexivity.
  - symmetry. apply nonempty_true. intros Hnil.
    apply (f_equal length) in Hnil. unfold Py.slice in Hnil.
    rewrite length_take, length_drop, length_fmap in Hnil.
    cbn [length] in Hnil. lia.
Qed.

End QueryFacts.

Section QueryTotality.

Variable py : Builtins.
Variable liqi : LiqiMethod.

Lemma copy_shape (pool p : pyval) :
  Py.copy pool = Some p ->
  match p with PNone | PList _ | PStr _ => True | _ => False end.
Proof. destruct pool; cbn; intros [= <-]; exact I. Qed.

Lemma process_msg_pool_shape (msg : WSMessage) :
  preserves pool_shape (_process_msg py liqi msg).
Proof.
  unfold_handlers.
  repeat preserve_step;
    try (apply preserves_assign; intros ? ?; unfold pool_shape in *; cbn;
         first [assumption | exact I]).
  all: try (apply preserves_assign; intros ? ?; unfold pool_shape; cbn;
            eapply copy_shape; eassumption).
  all: dead_login.
Qed.

Lemma reachable_pool_shape (s : BotManager) :
  reachable py liqi s -> pool_shape s.
Proof.
  induction 1 as [|s msg _ IH|s e _ IH]; [exact I | | exact IH].
  unfold loop_msg. pose proof (process_msg_pool_shape msg s IH) as H.
  destruct (_process_msg py liqi msg s) as [[[]|] s']; exact H.
Qed.

(** X17: in every reachable state the three display queries,
    [get_amulet_drawable_text], [get_amulet_replace_text] and
    [get_amulet_replace_queue], return a value; none of them raises. *)
Theorem queries_never_raise (s : BotManager) :
  reachable py liqi s ->
  is_Some (get_amulet_drawable_text py s)
  /\ is_Some (get_amulet_replace_text py s)
  /\ is_Some (get_amulet_replace_queue py s).
Proof.
  intros Hr. pose proof (reachable_pool_shape s Hr) as Hshape.
  unfold pool_shape in Hshape.
  unfold get_amulet_drawable_text, get_amulet_replace_text,
    get_amulet_replace_queue.
  destruct (_amulet_pool s) as [| | | str | l | ]; try tauto.
  - rewrite !andb_false_r. cbn. eauto.
  - repeat split; repeat (destruct (negb _); [eauto|]);
      cbn [Py.iter mbind option_bind]; try destruct (_ =? 0); eauto.
  - repeat split; repeat (destruct (negb _); [eauto|]);
      cbn [Py.iter mbind option_bind]; try destruct (_ =? 0); eauto.
Qed.

End QueryTotality.

Section ActivationFacts.

Variable py : Builtins.
Variable liqi : LiqiMethod.

Lemma fetch_keeps_active (d : pyval) :
  preserves (fun s => _amulet_active s = true) (_amulet_on_fetch_data py d).
Proof.
  unfold _amulet_on_fetch_data, fetch_info, _amulet_set_pool_from_array.
  preserve_frame.
Qed.

Lemma upgrade_keeps_active (events : list pyval) :
  preserves (fun s => _amulet_active s = true)
    (_amulet_on_upgrade_events py events).
Proof.
  unfold _amulet_on_upgrade_events, upgrade_event, apply_desktop_remain,
    apply_used, _amulet_update_from_events, update_from_event,
    _amulet_set_pool_from_array.
  preserve_frame.
Qed.

Lemma operate_keeps_active (events : list pyval) :
  preserves (fun s => _amulet_active s = true)
    (_amulet_on_operate_events py events).
Proof.
  unfold _amulet_on_operate_events, operate_event, apply_desktop_remain,
    apply_used, _amulet_update_from_events, update_from_event.
  preserve_frame.
Qed.

(** X18: after one pass of the loop on a fetch, upgrade or operate
    response that the ignore list lets through, [is_in_amulet] is true,
    also when the handler of the response raises. *)
Theorem amulet_response_activates (fid : string) (m : LiqiMsg) (s : BotManager) :
  liqi_type m = Res ->
  liqi_method m ∉ METHODS_TO_IGNORE liqi ->
  Py.occurs "amulet" (Py.lower (liqi_method m)) = true ->
  liqi_method m ∈ [fetchAmuletActivityData liqi; amuletActivityUpgrade liqi;
                   amuletActivityOperate liqi] ->
  is_in_amulet
    (loop_msg py liqi {| flow_id := fid; type := MESSAGE; content := Some m |} s)
  = true.
Proof.
  intros Hres Hign Hname Hmeth.
  assert (H : _amulet_active
                (_process_msg py liqi
                   {| flow_id := fid; type := MESSAGE; content := Some m |} s).2
              = true).
  { unfold _process_msg. cbn [type content].
    rewrite (bool_decide_eq_false_2 _ Hign).
    destruct (bool_decide (liqi_type m = Res)
              && String.eqb (liqi_method m) (oauth2Login liqi)) eqn:Hlogin.
    { exfalso. apply andb_true_iff in Hlogin as [_ Hlogin].
      apply String.eqb_eq in Hlogin. apply Hign. rewrite Hlogin.
      apply oauth2Login_ignored. }
    rewrite Hname, (bool_decide_eq_true_2 _ Hres).
    unfold amulet_dispatch.
    destruct (String.eqb_spec (liqi_method m) (fetchAmuletActivityData liqi)).
    { rewrite run_assign_bind. apply fetch_keeps_active. reflexivity. }
    destruct (String.eqb_spec (liqi_method m) (amuletActivityUpgrade liqi)).
    { rewrite run_assign_bind.
      apply (preserves_eval_bind (fun s0 => _amulet_active s0 = true));
        [|reflexivity].
      intros ev0 _. apply preserves_eval_bind. intros events _.
      apply upgrade_keeps_active. }
    destruct (String.eqb_spec (liqi_method m) (amuletActivityOperate liqi)).
    { rewrite run_assign_bind.
      apply (preserves_eval_bind (fun s0 => _amulet_active s0 = true));
        [|reflexivity].
      intros ev0 _. apply preserves_eval_bind. intros events _.
      apply operate_keeps_active. }
    exfalso. repeat (apply elem_of_cons in Hmeth as [?|Hmeth]; [congruence|]).
    inversion Hmeth. }
  unfold loop_msg, is_in_amulet.
  destruct (_process_msg py liqi _ s) as [[[]|] s']; exact H.
Qed.

End ActivationFacts.

(** ** [game/AmuletState.py] *)

Section AmuletGameFacts.

Import AmuletGame.

Lemma keeps_ret {A : Type} (P : AmuletGameState -> Prop) (a : A) :
  keeps P (mret a : Stmt A).
Proof. intros g Hg. exact Hg. Qed.

Lemma keeps_eval_bind {A B : Type} (P : AmuletGameState -> Prop)
    (e : option A) (f : A -> Stmt B) :
  (forall a, keeps P (f a)) -> keeps P (eval e ≫= f).
Proof.
  intros Hf g Hg. unfold mbind, Stmt_bind, eval.
  destruct e as [a|]; [apply Hf, Hg | exact Hg].
Qed.

Lemma keeps_bind {A B : Type} (P : AmuletGameState -> Prop)
    (m : Stmt A) (f : A -> Stmt B) :
  keeps P m -> (forall a, keeps P (f a)) -> keeps P (m ≫= f).
Proof.
  intros Hm Hf g Hg. unfold mbind, Stmt_bind. specialize (Hm g Hg).
  destruct (m g) as [[a|] g1]; [apply Hf, Hm | exact Hm].
Qed.

Lemma keeps_for_each {A : Type} (P : AmuletGameState -> Prop)
    (l : list A) (body : A -> Stmt unit) :
  (forall x, keeps P (body x)) -> keeps P (for_each l body).
Proof.
  intros Hb. induction l as [|x l IH]; cbn [for_each].
  - apply keeps_ret.
  - apply keeps_bind; [apply Hb | intros _; exact IH].
Qed.

Ltac keeps_step :=
  lazymatch goal with
  | |- keeps _ (mret _) => apply keeps_ret
  | |- keeps _ (eval _ ≫= _) => apply keeps_eval_bind; intros ?
  | |- keeps _ (for_each _ _) => apply keeps_for_each; intros ?
  | |- keeps _ (_ ≫= _) => apply keeps_bind; [| intros ?]
  | |- keeps _ (if ?b then _ else _) => destruct b
  end.

Lemma apply_event_ended (ev : pyval) :
  keeps (fun g => ended (state g) = PBool true) (_apply_event ev).
Proof.
  unfold _apply_event.
  repeat keeps_step; intros g Hg; first [exact Hg | reflexivity].
Qed.

(** X19: once [ended] of the [AmuletState] is [True], no event clears it:
    it is still [True] after the events of any message, whether or not one
    of them raises, and so in the state the bot is handed. [input] as a
    whole keeps it for every bot that does not itself reset the field of
    the state it is handed. *)
Theorem ended_is_sticky
    (decide : AmuletState -> outcome pyval * AmuletState)
    (liqi_msg : LiqiMsg) (g : AmuletGameState) :
  ended (state g) = PBool true ->
  (forall events,
      ended (state (for_each events _apply_event g).2) = PBool true)
  /\ ((forall a, ended a = PBool true -> ended (decide a).2 = PBool true) ->
      ended (state (input decide liqi_msg g).2) = PBool true).
Proof.
  intros Hg. split.
  - intros events.
    apply (keeps_for_each (fun g => ended (state g) = PBool true));
      [apply apply_event_ended | exact Hg].
  - intros Hbot. revert g Hg.
    change (keeps (fun g => ended (state g) = PBool true) (input decide liqi_msg)).
    unfold input.
    repeat first [apply apply_event_ended | keeps_step].
    all: intros g Hg; try exact Hg.
    unfold decide_now. specialize (Hbot (state g) Hg).
    destruct (decide (state g)) as [o st]. exact Hbot.
Qed.

(** X20: [input] returns [None] and changes nothing on a message that is
    not an amulet response. On an amulet response it returns what the bot
    returns on the state the events of the message have left, stores that
    as the pending reaction, and keeps the state as the bot leaves it; for
    a bot that does not write to the state this is the state after the
    events. When an event or the bot raises, the pending reaction stays
    the one of before. *)
Theorem pending_is_last_action
    (decide : AmuletState -> outcome pyval * AmuletState)
    (liqi_msg : LiqiMsg) (g : AmuletGameState) :
  let handled :=
    Py.occurs "amulet" (Py.lower (liqi_method liqi_msg)) = true
    /\ liqi_type liqi_msg = Res in
  match input decide liqi_msg g with
  | (Returned action, g') =>
      (~ handled /\ action = PNone /\ g' = g)
      \/ (handled
          /\ (exists events g1,
                events_of liqi_msg = Some events
                /\ for_each events _apply_event g = (Returned tt, g1)
                /\ decide (state g1) = (Returned action, state g')
                /\ ((decide (state g1)).2 = state g1 ->
                    decide (state g') = (Returned action, state g')))
          /\ get_pending_reaction g' = action)
  | (Raised, g') =>
      handled /\ get_pending_reaction g' = get_pending_reaction g
  end.
Proof.
  cbn zeta. unfold input, events_of.
  destruct (Py.occurs "amulet" (Py.lower (liqi_method liqi_msg)));
    cbn [negb]; [|left; split; [intros [? _]; discriminate | auto]].
  destruct (bool_decide_reflect (liqi_type liqi_msg = Res)) as [Hres|Hres];
    cbn [negb]; [|left; split; [tauto | auto]].
  assert (Hloop : forall l g0, _pending (for_each l _apply_event g0).2 = _pending g0).
  { intros l g0. apply (keeps_for_each (fun g1 => _pending g1 = _pending g0));
      [|reflexivity].
    intros ev. unfold _apply_event.
    repeat keeps_step; intros g1 Hg1; exact Hg1. }
  unfold mbind at 1 2 3, Stmt_bind, eval.
  destruct (Py.get_default (liqi_data liqi_msg) "events" (PList [])) as [e|];
    [|auto].
  cbn [mbind option_bind].
  destruct (Py.iter e) as [events|]; [|auto].
  specialize (Hloop events g).
  destruct (for_each events _apply_event g) as [[[]|] g1] eqn:Hev;
    cbn in Hloop; [|auto].
  unfold mbind, Stmt_bind, decide_now.
  destruct (decide (state g1)) as [[action|] a] eqn:Hdec; [|auto].
  cbn. right. split; [auto|]. split; [|reflexivity].
  exists events, g1. split; [reflexivity|]. split; [exact Hev|].
  split; [exact Hdec|].
  intros Hsame. rewrite Hdec in Hsame. cbn in Hsame. subst a. exact Hdec.
Qed.

(** X21: an event whose [valueChanges] is present and is [None] or
    another false value that is no dictionary makes
    [AmuletGameState._apply_event] raise, with the state unchanged, while
    the update of the manager's info dictionary from the same event
    returns and changes nothing: the manager reads the field with
    [or {}]. *)
Theorem null_value_changes_raise_here_only (evd : list (string * pyval))
    (v : pyval) (g : AmuletGameState) (s : BotManager) :
  Py.assoc "valueChanges" evd = Some v ->
  Py.truthy v = false ->
  Py.is_dict v = false ->
  _apply_event (PDict evd) g = (Raised, g)
  /\ update_from_event (PDict evd) s = (Returned tt, s).
Proof.
  intros Hv Hfalse Hnd. split.
  - unfold _apply_event, mbind, Stmt_bind, eval. cbn [Py.get_default].
    rewrite Hv. cbn [default from_option id].
    destruct v as [|[]|z|[|c str]|[|x l]|d]; try discriminate; reflexivity.
  - unfold update_from_event.
    erewrite run_eval_bind by (cbn [Py.get_default]; rewrite Hv; reflexivity).
    cbn [default from_option id]. cbn zeta.
    replace (Py.or v (PDict [])) with (PDict [])
      by (unfold Py.or; rewrite Hfalse; reflexivity).
    reflexivity.
Qed.

End AmuletGameFacts.

(** ** The icon downloader *)

Section IconsFacts.

Import Icons.

Lemma attempts_status (w : World) (i : Z) (todo : list nat) :
  forall last_err d gets,
    status (attempts w i todo last_err d gets).1.1 ∈ produced_statuses.
Proof.
  unfold produced_statuses.
  induction todo as [|attempt rest IH]; intros last_err d gets; cbn.
  - set_solver.
  - destruct (get w attempt) as [code body|message]; [|apply IH].
    destruct (negb (code =? 200)); [apply IH|].
    destruct (_ || _); [apply IH|].
    destruct (write w attempt); [|apply IH].
    cbn. destruct (excluded i); set_solver.
Qed.

(** X22: the status [download_one] returns is one of [ok_used],
    [ok_excluded], [skip_exist], [moved_to_excluded], [moved_to_used] and
    [error]; it is never [http_error] nor [bad_content], the two other
    statuses its documentation and the report of [main] name. *)
Theorem statuses_produced (w : World) (i : Z) (d : Disk) :
  status (download_one w i d).1.1 ∈ produced_statuses
  /\ status (download_one w i d).1.1 <> "http_error"
  /\ status (download_one w i d).1.1 <> "bad_content".
Proof.
  assert (H : status (download_one w i d).1.1 ∈ produced_statuses).
  { unfold download_one.
    destruct (used_dir d !! file_name i).
    - destruct (excluded i); [destruct (move w) as [[e d']|]|];
        cbn; unfold produced_statuses; set_solver.
    - destruct (unused_dir d !! file_name i).
      + destruct (excluded i); [|destruct (move w) as [[e d']|]];
          cbn; unfold produced_statuses; set_solver.
      + apply attempts_status. }
  split; [exact H|].
  unfold produced_statuses in H.
  split; intros E; rewrite E in H; apply list_elem_of_In in H; cbn in H;
    intuition discriminate.
Qed.

Lemma attempts_gets (w : World) (i : Z) (todo : list nat) :
  forall last_err d gets,
    (gets <= (attempts w i todo last_err d gets).2 <= gets + length todo)%nat.
Proof.
  induction todo as [|attempt rest IH]; intros last_err d gets; cbn [attempts length].
  - cbn. lia.
  - destruct (get w attempt) as [code body|message].
    + destruct (negb (code =? 200)).
      { specialize (IH (Some ("http " +:+ pretty code)) d (S gets)). lia. }
      destruct (_ || _).
      { specialize (IH (Some "not a valid PNG") d (S gets)). lia. }
      destruct (write w attempt) as [|remains message].
      * cbn. lia.
      * match goal with |- context [attempts w i rest ?l ?dd (S gets)] =>
          specialize (IH l dd (S gets)) end. lia.
    + specialize (IH (Some message) d (S gets)). lia.
Qed.

Lemma attempts_first_get (w : World) (i : Z) (attempt : nat) (rest : list nat)
    (last_err : option string) (d : Disk) (gets : nat) :
  (S gets <= (attempts w i (attempt :: rest) last_err d gets).2)%nat.
Proof.
  cbn [attempts].
  destruct (get w attempt) as [code body|message].
  - destruct (negb (code =? 200)); [apply attempts_gets|].
    destruct (_ || _); [apply attempts_gets|].
    destruct (write w attempt); [cbn; lia | apply attempts_gets].
  - apply attempts_gets.
Qed.

(** X23: [download_one] makes at most [RETRIES] = 3 requests, and it
    makes none exactly when the file is already in one of the two
    directories. *)
Theorem requests_only_for_missing_files (w : World) (i : Z) (d : Disk) :
  ((download_one w i d).2 <= RETRIES)%nat
  /\ ((download_one w i d).2 = O <-> found i d <> None).
Proof.
  unfold download_one, found.
  destruct (used_dir d !! file_name i) as [c|].
  - destruct (excluded i); [destruct (move w) as [[e d']|]|];
      cbn; (split; [lia | split; [discriminate | reflexivity]]).
  - destruct (unused_dir d !! file_name i) as [c|].
    + destruct (excluded i); [|destruct (move w) as [[e d']|]];
        cbn; (split; [lia | split; [discriminate | reflexivity]]).
    + split.
      * pose proof (attempts_gets w i (seq 1 RETRIES) None d O) as H.
        rewrite length_seq in H. lia.
      * pose proof (attempts_first_get w i 1 (seq 2 2) None d O) as H.
        change (seq 1 RETRIES) with (1 :: seq 2 2)%nat.
        split; [lia | congruence].
Qed.

Lemma prefix_substring (p s : string) :
  forall n, (String.length p <= n)%nat ->
    String.prefix p (String.substring 0 n s) = String.prefix p s.
Proof.
  revert s. induction p as [|c p IH]; intros s n Hn.
  - destruct n, s; reflexivity.
  - cbn in Hn. destruct n as [|n]; [lia|].
    destruct s as [|c' s]; [reflexivity|].
    cbn. destruct (Ascii.ascii_dec c c'); [|reflexivity].
    apply IH. lia.
Qed.

Lemma home_store (i : Z) (fname content : string) (d : Disk) :
  home i (store i fname content d) !! fname = Some content.
Proof.
  unfold home, store. destruct (excluded i); cbn; apply lookup_insert_eq.
Qed.

Lemma attempts_stored (w : World) (i : Z) (todo : list nat) :
  forall last_err d gets,
    status (attempts w i todo last_err d gets).1.1 <> "error" ->
    exists attempt content,
      attempt ∈ todo
      /\ get w attempt = Http 200 (Some content)
      /\ String.prefix PNG_MAGIC content = true
      /\ home i (attempts w i todo last_err d gets).1.2 !! file_name i
         = Some content
      /\ status (attempts w i todo last_err d gets).1.1
         = (if excluded i then "ok_excluded" else "ok_used").
Proof.
  induction todo as [|attempt rest IH]; intros last_err d gets; cbn [attempts].
  - cbn. congruence.
  - assert (Hrest : forall l dd g,
      status (attempts w i rest l dd g).1.1 <> "error" ->
      exists attempt0 content,
        attempt0 ∈ attempt :: rest
        /\ get w attempt0 = Http 200 (Some content)
        /\ String.prefix PNG_MAGIC content = true
        /\ home i (attempts w i rest l dd g).1.2 !! file_name i = Some content
        /\ status (attempts w i rest l dd g).1.1
           = (if excluded i then "ok_excluded" else "ok_used")).
    { intros l dd g H. destruct (IH l dd g H) as (a & c & Ha & Hc).
      exists a, c. split; [apply elem_of_cons; right; exact Ha | exact Hc]. }
    destruct (get w attempt) as [code body|message] eqn:Hget; [|apply Hrest].
    destruct (negb (code =? 200)) eqn:Hcode; [apply Hrest|].
    destruct (_ || _) eqn:Hvalid; [apply Hrest|].
    destruct (write w attempt) as [|remains message]; [|apply Hrest].
    intros _. cbn.
    apply negb_false_iff, Z.eqb_eq in Hcode. subst code.
    apply orb_false_iff in Hvalid as [Hlen Hpng].
    apply negb_false_iff in Hpng. unfold is_png in Hpng.
    rewrite prefix_substring in Hpng by (cbn; lia).
    destruct body as [content|]; [|discriminate Hpng].
    exists attempt, content. cbn [default from_option id] in *.
    split; [apply elem_of_cons; left; reflexivity|].
    split; [exact Hget|]. split; [exact Hpng|].
    split; [apply home_store | reflexivity].
Qed.

(** X24: when the file is in neither directory and the status is not
    [error], one of the at most three requests was answered with status
    code 200 and a content that starts with the PNG signature; that
    content is the file now in the directory of the id, the unused one for
    an excluded id with status [ok_excluded], the used one otherwise with
    status [ok_used]. *)
Theorem only_png_responses_stored (w : World) (i : Z) (d : Disk)
    (Hmissing : found i d = None)
    (Hok : status (download_one w i d).1.1 <> "error") :
  exists attempt content,
    (1 <= attempt <= RETRIES)%nat
    /\ get w attempt = Http 200 (Some content)
    /\ String.prefix PNG_MAGIC content = true
    /\ home i (download_one w i d).1.2 !! file_name i = Some content
    /\ status (download_one w i d).1.1
       = (if excluded i then "ok_excluded" else "ok_used").
Proof.
  unfold found in Hmissing. unfold download_one in *.
  destruct (used_dir d !! file_name i); [discriminate|].
  rewrite Hmissing in *.
  destruct (attempts_stored w i _ _ _ _ Hok) as (a & c & Ha & Hc).
  exists a, c. split; [|exact Hc].
  apply elem_of_seq in Ha. unfold RETRIES in *. lia.
Qed.

(** X25: when the file exists and the status is not [error], the
    directory the id belongs in holds the file with its content of
    before; either nothing was done, with status [skip_exist], or the file
    was moved there from the other directory. *)
Theorem existing_file_kept_in_place (w : World) (i : Z) (d : Disk)
    (content : string)
    (Hfound : found i d = Some content)
    (Hok : status (download_one w i d).1.1 <> "error") :
  home i (download_one w i d).1.2 !! file_name i = Some content
  /\ (status (download_one w i d).1.1 = "skip_exist"
      \/ (download_one w i d).1.2
         = (if excluded i
            then {| used_dir := delete (file_name i) (used_dir d);
                    unused_dir := <[file_name i := content]> (unused_dir d) |}
            else {| used_dir := <[file_name i := content]> (used_dir d);
                    unused_dir := delete (file_name i) (unused_dir d) |})).
Proof.
  unfold found in Hfound. unfold download_one, home in *.
  destruct (used_dir d !! file_name i) as [c|] eqn:Hused.
  - injection Hfound as ->.
    destruct (excluded i) eqn:Hex.
    + destruct (move w) as [[e d']|]; cbn in *; [congruence|].
      split; [apply lookup_insert_eq | right; reflexivity].
    + cbn. split; [exact Hused | left; reflexivity].
  - rewrite Hfound in *.
    destruct (excluded i) eqn:Hex.
    + cbn. split; [exact Hfound | left; reflexivity].
    + destruct (move w) as [[e d']|]; cbn in *; [congruence|].
      split; [apply lookup_insert_eq | right; reflexivity].
Qed.

Lemma all_from_spec (f : Z -> bool) (n : nat) :
  forall i j, all_from n i f = true -> i <= j < i + Z.of_nat n -> f j = true.
Proof.
  induction n as [|n IH]; intros i j H Hj; [lia|].
  cbn [all_from] in H. apply andb_true_iff in H as [Hi Hrest].
  destruct (decide (j = i)) as [->|Hne]; [exact Hi|].
  apply (IH (i + 1)); [exact Hrest | lia].
Qed.

Lemma four_digits_all : all_from (Z.to_nat 10000) 0 four_digits = true.
Proof. vm_compute. reflexivity. Qed.

(** X26: for an id from 0 to 9999 [fmt_id] gives a string of four
    characters, decimal digits that read back as the id. *)
Theorem fmt_id_four_digits (i : Z) (Hrange : 0 <= i <= 9999) :
  String.length (fmt_id i) = 4%nat /\ digits_value 0 (fmt_id i) = Some i.
Proof.
  pose proof (all_from_spec _ _ 0 i four_digits_all) as H.
  rewrite Z2Nat.id in H by lia.
  specialize (H ltac:(lia)).
  unfold four_digits in H. apply andb_true_iff in H as [Hl Hd].
  split; [apply Nat.eqb_eq, Hl|].
  destruct (digits_value 0 (fmt_id i)) as [v|]; [|discriminate].
  apply Z.eqb_eq in Hd. congruence.
Qed.

End IconsFacts.

(** ** The step after each message *)

Section LoopFacts.

Import Loop.

(** X27: two runs of [_loop_post_msg], the first with the MITM server
    stopped and the second with it running again, leave no game exception
    whatever was stored before, and the second calls
    [decide_lobby_action]; without the outage a game exception of another
    class than [MITMException] stays and [decide_lobby_action] is not
    called. *)
Theorem outage_forgets_game_error (down up : Readings)
    (game_exception : option game_error)
    (Hdown : mitm_is_running down = PBool false)
    (Hup : mitm_is_running up <> PBool false) :
  (_loop_post_msg up (_loop_post_msg down game_exception).1).1 = None
  /\ decide_lobby_action
       ∈ (_loop_post_msg up (_loop_post_msg down game_exception).1).2
  /\ (_loop_post_msg up (Some OtherError)).1 = Some OtherError
  /\ decide_lobby_action ∉ (_loop_post_msg up (Some OtherError)).2.
Proof.
  assert (Hrun : is_False (mitm_is_running up) = false).
  { destruct (mitm_is_running up) as [|[]| | | |]; try reflexivity.
    contradiction Hup; reflexivity. }
  unfold _loop_post_msg, check_mitm. rewrite Hdown, Hrun. cbn.
  split; [reflexivity|].
  split; [rewrite !elem_of_app; right; right; apply list_elem_of_singleton;
          reflexivity|].
  split; [reflexivity|].
  rewrite elem_of_app, list_elem_of_singleton.
  intros [H|H]; [|discriminate H].
  unfold check_overlay in H.
  repeat match type of H with
         | context [if ?b then _ else _] => destruct b
         end;
    first [ apply elem_of_nil in H; exact H
          | apply list_elem_of_singleton in H; discriminate H ].
Qed.

End LoopFacts.

(** ** More runs on concrete inputs *)

Section MoreRuns.

Lemma after_fetch_reachable : reachable sample_builtins sample_methods after_fetch.
Proof. apply reach_msg, reach_init. Qed.

Lemma session_stays_idle_witness :
  reachable sample_builtins sample_methods after_long_history
  /\ calls after_long_history = [].
Proof.
  split; [exact after_long_history_reachable|].
  apply (session_stays_idle sample_builtins sample_methods after_long_history
           after_long_history_reachable).
Defined.

Lemma client_type_never_proxy_witness :
  reachable sample_builtins sample_methods after_fetch
  /\ get_game_client_type false after_fetch = None.
Proof.
  split; [exact after_fetch_reachable|].
  apply (client_type_never_proxy sample_builtins sample_methods after_fetch
           false after_fetch_reachable).
Defined.

Lemma frames_without_effect_witness :
  passes_through sample_methods upgrade_request after_fetch
  /\ _process_msg sample_builtins sample_methods upgrade_request after_fetch
     = (Returned tt, after_fetch).
Proof.
  assert (H : passes_through sample_methods upgrade_request after_fetch)
    by (left; discriminate).
  split; [exact H|].
  apply (frames_without_effect sample_builtins sample_methods upgrade_request
           after_fetch H).
Defined.


Lemma message_replay_idempotent_witness :
  loop_msg sample_builtins sample_methods sample_fetch
    (loop_msg sample_builtins sample_methods sample_fetch stale_counters)
  = loop_msg sample_builtins sample_methods sample_fetch stale_counters.
Proof.
  apply (message_replay_idempotent sample_builtins sample_methods sample_fetch
           stale_counters).
  reflexivity.
Defined.

Lemma message_outcome_state_independent_witness :
  (_process_msg sample_builtins sample_methods
     (sample_operate "flow-1" "desktopRemain" (PStr "many")) init).1
  = (_process_msg sample_builtins sample_methods
       (sample_operate "flow-1" "desktopRemain" (PStr "many"))
       after_long_history).1.
Proof.
  apply (message_outcome_state_independent sample_builtins sample_methods
           (sample_operate "flow-1" "desktopRemain" (PStr "many"))
           init after_long_history).
  reflexivity.
Defined.

Lemma fetch_without_pool_witness :
  exists s',
    _amulet_on_fetch_data sample_builtins
      (PDict [("data", PDict [("game", PDict [("round", PDict [])])])])
      after_long_history
    = (Returned tt, s')
    /\ pool_and_segments s' = pool_and_segments after_long_history
    /\ counters s' = (∅, 0, 0).
Proof.
  apply (fetch_without_pool sample_builtins after_long_history
           [("data", PDict [("game", PDict [("round", PDict [])])])]
           [("game", PDict [("round", PDict [])])]
           [("round", PDict [])]
           []);
    reflexivity.
Defined.

Lemma fetch_adopts_resume_fields_witness :
  exists s',
    _amulet_on_fetch_data sample_builtins
      (PDict [("data", PDict [("game", PDict [("round", PDict resumed_round)])])])
      init
    = (Returned tt, s')
    /\ counters s' = (list_to_set [23; 24], 34, 3).
Proof.
  destruct (fetch_adopts_resume_fields sample_builtins init
              [("data", PDict [("game", PDict [("round", PDict resumed_round)])])]
              [("game", PDict [("round", PDict resumed_round)])]
              [("round", PDict resumed_round)]
              resumed_round sample_pool [PInt 59; PInt 60; PInt 61] [23; 24] 34
              eq_refl eq_refl eq_refl eq_refl
              ltac:(discriminate) sample_pool_readable eq_refl eq_refl eq_refl)
    as (s' & Hrun & Hc & _).
  exists s'. split; [exact Hrun | exact Hc].
Defined.

Lemma upgrade_applies_fields_after_pool_witness :
  exists s',
    _amulet_on_upgrade_events sample_builtins [sample_upgrade_event]
      stale_counters
    = (Returned tt, s')
    /\ counters s' = (∅, 30, 1)
    /\ _amulet_pool s' = PList sample_pool.
Proof.
  destruct (upgrade_applies_fields_after_pool sample_builtins stale_counters
              sample_upgrade_event upgrade_round sample_pool [PInt 59] 30)
    as (s' & Hrun & Hc & Hp & _).
  - eexists _, _. repeat split; reflexivity.
  - eexists _, _. repeat split; reflexivity.
  - exact sample_pool_readable.
  - eexists _, _. repeat split; reflexivity.
  - eexists _, _. repeat split; reflexivity.
  - exists s'. split; [exact Hrun|]. split; [exact Hc | exact Hp].
Defined.

Lemma stage_event_quiet : quiet stage_event.
Proof.
  intros vc r Hvc Hr k f _ Hf.
  injection Hvc as <-. injection Hr as <-.
  cbn in Hf. injection Hf as <-. reflexivity.
Qed.

Lemma quiet_events_keep_bookkeeping_witness :
  Forall quiet [stage_event; stage_event]
  /\ counters
       (_amulet_on_operate_events sample_builtins [stage_event; stage_event]
          after_long_history).2
     = counters after_long_history.
Proof.
  assert (H : Forall quiet [stage_event; stage_event])
    by (repeat constructor; apply stage_event_quiet).
  split; [exact H|].
  apply (quiet_events_keep_bookkeeping sample_builtins
           [stage_event; stage_event] after_long_history H).
Defined.

Lemma unreadable_remain_aborts_batch_witness :
  _amulet_on_operate_events sample_builtins
    [dirty_event "desktopRemain" (PStr "many");
     dirty_event "usedDesktop" (PList [PInt 23])] after_fetch
  = (Raised, after_fetch).
Proof.
  apply (unreadable_remain_aborts_batch sample_builtins after_fetch
           (dirty_event "desktopRemain" (PStr "many"))
           [dirty_event "usedDesktop" (PList [PInt 23])]
           [("desktopRemain", dirty (PStr "many"))]
           [("dirty", PBool true); ("value", PStr "many")]
           (PBool true) (PStr "many") PNone);
    try reflexivity.
  eexists _, _. repeat split; reflexivity.
Defined.

Lemma unreadable_id_leaves_pool_half_set_witness :
  _amulet_set_pool_from_array sample_builtins (PList broken_pool) stale_counters
  = (Raised, set_amulet_pool (PList broken_pool) stale_counters).
Proof.
  apply (unreadable_id_leaves_pool_half_set sample_builtins stale_counters
           broken_pool 30 (PDict [("id", PStr "x")]));
    [reflexivity | lia | reflexivity | reflexivity].
Defined.

Lemma segments_of_any_length_witness :
  exists s',
    _amulet_set_pool_from_array sample_builtins
      (PList (map sample_tile (seq 0 70))) init
    = (Returned tt, s')
    /\ length (_amulet_draw_ids s') = 36%nat
    /\ length (_amulet_replace_ids s') = 11%nat.
Proof.
  destruct (segments_of_any_length sample_builtins init
              (map sample_tile (seq 0 70)) (map Z.of_nat (seq 0 70))
              (sample_tiles (seq 0 70)))
    as (s' & Hrun & _ & _ & Hd & Hr).
  exists s'. split; [exact Hrun|]. split; [exact Hd | exact Hr].
Defined.

Lemma replace_text_shows_queue_witness :
  exists q : list string,
    get_amulet_replace_queue sample_builtins after_fetch = Some q
    /\ length q = 49%nat.
Proof.
  edestruct (replace_text_shows_queue sample_builtins after_fetch)
    as (q & Hq & Hlen & _).
  - vm_compute. reflexivity.
  - discriminate.
  - exists q. split; [exact Hq|]. rewrite Hlen. vm_compute. reflexivity.
Defined.

Lemma sample_pool_records (l : list nat) :
  Forall2 (tile_record sample_builtins) (map sample_tile l) (map sample_record l).
Proof.
  induction l as [|i l IH]; constructor; [|exact IH].
  eexists _, _, _. repeat split; reflexivity.
Qed.

Lemma replace_queue_is_pool_tail_witness :
  get_amulet_replace_queue sample_builtins after_fetch
  = Some (Py.slice 59 108 sample_records.*2).
Proof.
  apply (replace_queue_is_pool_tail sample_builtins after_fetch sample_pool
           sample_records).
  - reflexivity.
  - reflexivity.
  - vm_compute. reflexivity.
  - apply sample_pool_records.
  - apply (bool_decide_unpack _). vm_compute. exact I.
  - cbn. lia.
Defined.

Lemma queries_never_raise_witness :
  is_Some (get_amulet_drawable_text sample_builtins after_long_history)
  /\ is_Some (get_amulet_replace_text sample_builtins after_long_history)
  /\ is_Some (get_amulet_replace_queue sample_builtins after_long_history).
Proof.
  apply (queries_never_raise sample_builtins sample_methods after_long_history
           after_long_history_reachable).
Defined.

Lemma amulet_response_activates_witness :
  is_in_amulet
    (loop_msg sample_builtins sample_methods
       (sample_operate "flow-1" "desktopRemain" (PStr "many")) init)
  = true.
Proof.
  apply (amulet_response_activates sample_builtins sample_methods "flow-1"
           {| liqi_id := 1; liqi_type := Res;
              liqi_method := amuletActivityOperate sample_methods;
              liqi_data :=
                PDict [("events",
                        PList [dirty_event "desktopRemain" (PStr "many")])] |}
           init).
  - reflexivity.
  - apply (bool_decide_unpack _). vm_compute. exact I.
  - vm_compute. reflexivity.
  - apply (bool_decide_unpack _). vm_compute. exact I.
Defined.

Lemma ended_is_sticky_witness :
  AmuletGame.ended (AmuletGame.state ended_game) = PBool true
  /\ AmuletGame.ended
       (AmuletGame.state
          (AmuletGame.input pass_bot not_ended_msg ended_game).2)
     = PBool true.
Proof.
  split; [reflexivity|].
  apply (proj2 (ended_is_sticky pass_bot not_ended_msg ended_game eq_refl)).
  intros a Ha. exact Ha.
Defined.

Lemma null_value_changes_raise_here_only_witness :
  AmuletGame._apply_event (PDict [("valueChanges", PNone)]) ended_game
  = (Raised, ended_game)
  /\ update_from_event (PDict [("valueChanges", PNone)]) after_fetch
     = (Returned tt, after_fetch).
Proof.
  apply (null_value_changes_raise_here_only [("valueChanges", PNone)] PNone
           ended_game after_fetch);
    reflexivity.
Defined.

Lemma only_png_responses_stored_witness :
  exists attempt content,
    Icons.get flaky_world attempt = Icons.Http 200 (Some content)
    /\ String.prefix Icons.PNG_MAGIC content = true
    /\ Icons.used_dir (Icons.download_one flaky_world 1 empty_disk).1.2
         !! Icons.file_name 1
       = Some content.
Proof.
  destruct (only_png_responses_stored flaky_world 1 empty_disk)
    as (attempt & content & _ & Hget & Hpng & Hfile & _).
  - reflexivity.
  - vm_compute. discriminate.
  - exists attempt, content.
    split; [exact Hget|]. split; [exact Hpng | exact Hfile].
Defined.

Lemma existing_file_kept_in_place_witness :
  Icons.found 3 disk_with_3 = Some "bytes"
  /\ Icons.unused_dir (Icons.download_one flaky_world 3 disk_with_3).1.2
       !! Icons.file_name 3
     = Some "bytes".
Proof.
  assert (H : Icons.found 3 disk_with_3 = Some "bytes") by (vm_compute; reflexivity).
  split; [exact H|].
  apply (existing_file_kept_in_place flaky_world 3 disk_with_3 "bytes" H).
  vm_compute. discriminate.
Defined.

Lemma fmt_id_four_digits_witness :
  String.length (Icons.fmt_id 7) = 4%nat
  /\ Icons.digits_value 0 (Icons.fmt_id 7) = Some 7.
Proof. apply (fmt_id_four_digits 7). lia. Defined.

Lemma outage_forgets_game_error_witness :
  (Loop._loop_post_msg mitm_up
     (Loop._loop_post_msg mitm_down (Some Loop.OtherError)).1).1
  = None
  /\ (Loop._loop_post_msg mitm_up (Some Loop.OtherError)).1
     = Some Loop.OtherError.
Proof.
  destruct (outage_forgets_game_error mitm_down mitm_up
              (Some Loop.OtherError))
    as (Hnone & _ & Hkept & _).
  - reflexivity.
  - discriminate.
  - split; [exact Hnone | exact Hkept].
Defined.

End MoreRuns.
